(** * GCode Tool Extractor: the parsing core of [gcode_tool_extractor_gui.py]

    A shallow embedding of the core functions of the program
    ([is_noise_comment], [extract_program_name], [_comments_on_line],
    [_nearest_good_comment], [extract_tools], [format_tool_list]) together
    with the part of Python's runtime they rest on: [str] as a sequence of
    code points, [str.strip], [str.splitlines], [int], the backtracking
    matcher of the [re] module, [dict.setdefault], [sorted] and the [02d]
    format.  Operations of Python that can raise are modelled in an error
    monad, so that totality of the core is a theorem and not a convention.
    Of the window, the loop of [get_tool_list] over the selected files is
    embedded, with the file system and [os.path.basename] as parameters. *)

From Stdlib Require Import ZArith NArith Lia String Ascii.
From stdpp Require Import base option list sorting gmap.

Local Open Scope N_scope.

(** ** Text

    A Python [str] is a sequence of Unicode code points. *)

Abbreviation char := N (only parsing).
Abbreviation str := (list N) (only parsing).

(** Literals of the source are written as Rocq strings and read as code
    points (all of them are ASCII). *)
Definition py (s : string) : str := map N_of_ascii (list_ascii_of_string s).

Definition in_range (lo hi c : N) : bool := (lo <=? c) && (c <=? hi).

(** ** The character tables of CPython (Unicode 14.0) *)
Module Unicode.

(** [Py_UNICODE_ISSPACE]: the class of [str.strip] and of [\s]. *)
Definition is_space (c : N) : bool :=
  in_range 0x09 0x0D c || in_range 0x1C 0x20 c || (c =? 0x85) || (c =? 0xA0)
  || (c =? 0x1680) || in_range 0x2000 0x200A c || in_range 0x2028 0x2029 c
  || (c =? 0x202F) || (c =? 0x205F) || (c =? 0x3000).

(** The line boundaries of [str.splitlines]. *)
Definition is_linebreak (c : N) : bool :=
  in_range 0x0A 0x0D c || in_range 0x1C 0x1E c || (c =? 0x85)
  || in_range 0x2028 0x2029 c.

(** General category Nd, the class [\d]: each entry starts a run of the ten
    digits 0 to 9. *)
Definition decimal_runs : list N :=
  [
    0x30; 0x660; 0x6F0; 0x7C0; 0x966; 0x9E6; 0xA66; 0xAE6; 0xB66; 0xBE6;
    0xC66; 0xCE6; 0xD66; 0xDE6; 0xE50; 0xED0; 0xF20; 0x1040; 0x1090; 0x17E0;
    0x1810; 0x1946; 0x19D0; 0x1A80; 0x1A90; 0x1B50; 0x1BB0; 0x1C40; 0x1C50; 0xA620;
    0xA8D0; 0xA900; 0xA9D0; 0xA9F0; 0xAA50; 0xABF0; 0xFF10; 0x104A0; 0x10D30; 0x11066;
    0x110F0; 0x11136; 0x111D0; 0x112F0; 0x11450; 0x114D0; 0x11650; 0x116C0; 0x11730; 0x118E0;
    0x11950; 0x11C50; 0x11D50; 0x11DA0; 0x16A60; 0x16AC0; 0x16B50; 0x1D7CE; 0x1D7D8; 0x1D7E2;
    0x1D7EC; 0x1D7F6; 0x1E140; 0x1E2F0; 0x1E950; 0x1FBF0 ].

Definition digit_run (c : N) : option N :=
  find (fun z => in_range z (z + 9) c) decimal_runs.

Definition is_digit (c : N) : bool := bool_decide (is_Some (digit_run c)).

(** [Py_UNICODE_TODECIMAL] on a digit. *)
Definition digit_value (c : N) : N :=
  match digit_run c with Some z => c - z | None => 0 end.

(** [Py_UNICODE_ISALNUM] or underscore, the class [\w], as closed ranges. *)
Definition word_ranges : list (N * N) :=
  [
    (0x30, 0x39); (0x41, 0x5A); (0x5F, 0x5F); (0x61, 0x7A); (0xAA, 0xAA); (0xB2, 0xB3);
    (0xB5, 0xB5); (0xB9, 0xBA); (0xBC, 0xBE); (0xC0, 0xD6); (0xD8, 0xF6); (0xF8, 0x2C1);
    (0x2C6, 0x2D1); (0x2E0, 0x2E4); (0x2EC, 0x2EC); (0x2EE, 0x2EE); (0x370, 0x374); (0x376, 0x377);
    (0x37A, 0x37D); (0x37F, 0x37F); (0x386, 0x386); (0x388, 0x38A); (0x38C, 0x38C); (0x38E, 0x3A1);
    (0x3A3, 0x3F5); (0x3F7, 0x481); (0x48A, 0x52F); (0x531, 0x556); (0x559, 0x559); (0x560, 0x588);
    (0x5D0, 0x5EA); (0x5EF, 0x5F2); (0x620, 0x64A); (0x660, 0x669); (0x66E, 0x66F); (0x671, 0x6D3);
    (0x6D5, 0x6D5); (0x6E5, 0x6E6); (0x6EE, 0x6FC); (0x6FF, 0x6FF); (0x710, 0x710); (0x712, 0x72F);
    (0x74D, 0x7A5); (0x7B1, 0x7B1); (0x7C0, 0x7EA); (0x7F4, 0x7F5); (0x7FA, 0x7FA); (0x800, 0x815);
    (0x81A, 0x81A); (0x824, 0x824); (0x828, 0x828); (0x840, 0x858); (0x860, 0x86A); (0x870, 0x887);
    (0x889, 0x88E); (0x8A0, 0x8C9); (0x904, 0x939); (0x93D, 0x93D); (0x950, 0x950); (0x958, 0x961);
    (0x966, 0x96F); (0x971, 0x980); (0x985, 0x98C); (0x98F, 0x990); (0x993, 0x9A8); (0x9AA, 0x9B0);
    (0x9B2, 0x9B2); (0x9B6, 0x9B9); (0x9BD, 0x9BD); (0x9CE, 0x9CE); (0x9DC, 0x9DD); (0x9DF, 0x9E1);
    (0x9E6, 0x9F1); (0x9F4, 0x9F9); (0x9FC, 0x9FC); (0xA05, 0xA0A); (0xA0F, 0xA10); (0xA13, 0xA28);
    (0xA2A, 0xA30); (0xA32, 0xA33); (0xA35, 0xA36); (0xA38, 0xA39); (0xA59, 0xA5C); (0xA5E, 0xA5E);
    (0xA66, 0xA6F); (0xA72, 0xA74); (0xA85, 0xA8D); (0xA8F, 0xA91); (0xA93, 0xAA8); (0xAAA, 0xAB0);
    (0xAB2, 0xAB3); (0xAB5, 0xAB9); (0xABD, 0xABD); (0xAD0, 0xAD0); (0xAE0, 0xAE1); (0xAE6, 0xAEF);
    (0xAF9, 0xAF9); (0xB05, 0xB0C); (0xB0F, 0xB10); (0xB13, 0xB28); (0xB2A, 0xB30); (0xB32, 0xB33);
    (0xB35, 0xB39); (0xB3D, 0xB3D); (0xB5C, 0xB5D); (0xB5F, 0xB61); (0xB66, 0xB6F); (0xB71, 0xB77);
    (0xB83, 0xB83); (0xB85, 0xB8A); (0xB8E, 0xB90); (0xB92, 0xB95); (0xB99, 0xB9A); (0xB9C, 0xB9C);
    (0xB9E, 0xB9F); (0xBA3, 0xBA4); (0xBA8, 0xBAA); (0xBAE, 0xBB9); (0xBD0, 0xBD0); (0xBE6, 0xBF2);
    (0xC05, 0xC0C); (0xC0E, 0xC10); (0xC12, 0xC28); (0xC2A, 0xC39); (0xC3D, 0xC3D); (0xC58, 0xC5A);
    (0xC5D, 0xC5D); (0xC60, 0xC61); (0xC66, 0xC6F); (0xC78, 0xC7E); (0xC80, 0xC80); (0xC85, 0xC8C);
    (0xC8E, 0xC90); (0xC92, 0xCA8); (0xCAA, 0xCB3); (0xCB5, 0xCB9); (0xCBD, 0xCBD); (0xCDD, 0xCDE);
    (0xCE0, 0xCE1); (0xCE6, 0xCEF); (0xCF1, 0xCF2); (0xD04, 0xD0C); (0xD0E, 0xD10); (0xD12, 0xD3A);
    (0xD3D, 0xD3D); (0xD4E, 0xD4E); (0xD54, 0xD56); (0xD58, 0xD61); (0xD66, 0xD78); (0xD7A, 0xD7F);
    (0xD85, 0xD96); (0xD9A, 0xDB1); (0xDB3, 0xDBB); (0xDBD, 0xDBD); (0xDC0, 0xDC6); (0xDE6, 0xDEF);
    (0xE01, 0xE30); (0xE32, 0xE33); (0xE40, 0xE46); (0xE50, 0xE59); (0xE81, 0xE82); (0xE84, 0xE84);
    (0xE86, 0xE8A); (0xE8C, 0xEA3); (0xEA5, 0xEA5); (0xEA7, 0xEB0); (0xEB2, 0xEB3); (0xEBD, 0xEBD);
    (0xEC0, 0xEC4); (0xEC6, 0xEC6); (0xED0, 0xED9); (0xEDC, 0xEDF); (0xF00, 0xF00); (0xF20, 0xF33);
    (0xF40, 0xF47); (0xF49, 0xF6C); (0xF88, 0xF8C); (0x1000, 0x102A); (0x103F, 0x1049); (0x1050, 0x1055);
    (0x105A, 0x105D); (0x1061, 0x1061); (0x1065, 0x1066); (0x106E, 0x1070); (0x1075, 0x1081); (0x108E, 0x108E);
    (0x1090, 0x1099); (0x10A0, 0x10C5); (0x10C7, 0x10C7); (0x10CD, 0x10CD); (0x10D0, 0x10FA); (0x10FC, 0x1248);
    (0x124A, 0x124D); (0x1250, 0x1256); (0x1258, 0x1258); (0x125A, 0x125D); (0x1260, 0x1288); (0x128A, 0x128D);
    (0x1290, 0x12B0); (0x12B2, 0x12B5); (0x12B8, 0x12BE); (0x12C0, 0x12C0); (0x12C2, 0x12C5); (0x12C8, 0x12D6);
    (0x12D8, 0x1310); (0x1312, 0x1315); (0x1318, 0x135A); (0x1369, 0x137C); (0x1380, 0x138F); (0x13A0, 0x13F5);
    (0x13F8, 0x13FD); (0x1401, 0x166C); (0x166F, 0x167F); (0x1681, 0x169A); (0x16A0, 0x16EA); (0x16EE, 0x16F8);
    (0x1700, 0x1711); (0x171F, 0x1731); (0x1740, 0x1751); (0x1760, 0x176C); (0x176E, 0x1770); (0x1780, 0x17B3);
    (0x17D7, 0x17D7); (0x17DC, 0x17DC); (0x17E0, 0x17E9); (0x17F0, 0x17F9); (0x1810, 0x1819); (0x1820, 0x1878);
    (0x1880, 0x1884); (0x1887, 0x18A8); (0x18AA, 0x18AA); (0x18B0, 0x18F5); (0x1900, 0x191E); (0x1946, 0x196D);
    (0x1970, 0x1974); (0x1980, 0x19AB); (0x19B0, 0x19C9); (0x19D0, 0x19DA); (0x1A00, 0x1A16); (0x1A20, 0x1A54);
    (0x1A80, 0x1A89); (0x1A90, 0x1A99); (0x1AA7, 0x1AA7); (0x1B05, 0x1B33); (0x1B45, 0x1B4C); (0x1B50, 0x1B59);
    (0x1B83, 0x1BA0); (0x1BAE, 0x1BE5); (0x1C00, 0x1C23); (0x1C40, 0x1C49); (0x1C4D, 0x1C7D); (0x1C80, 0x1C88);
    (0x1C90, 0x1CBA); (0x1CBD, 0x1CBF); (0x1CE9, 0x1CEC); (0x1CEE, 0x1CF3); (0x1CF5, 0x1CF6); (0x1CFA, 0x1CFA);
    (0x1D00, 0x1DBF); (0x1E00, 0x1F15); (0x1F18, 0x1F1D); (0x1F20, 0x1F45); (0x1F48, 0x1F4D); (0x1F50, 0x1F57);
    (0x1F59, 0x1F59); (0x1F5B, 0x1F5B); (0x1F5D, 0x1F5D); (0x1F5F, 0x1F7D); (0x1F80, 0x1FB4); (0x1FB6, 0x1FBC);
    (0x1FBE, 0x1FBE); (0x1FC2, 0x1FC4); (0x1FC6, 0x1FCC); (0x1FD0, 0x1FD3); (0x1FD6, 0x1FDB); (0x1FE0, 0x1FEC);
    (0x1FF2, 0x1FF4); (0x1FF6, 0x1FFC); (0x2070, 0x2071); (0x2074, 0x2079); (0x207F, 0x2089); (0x2090, 0x209C);
    (0x2102, 0x2102); (0x2107, 0x2107); (0x210A, 0x2113); (0x2115, 0x2115); (0x2119, 0x211D); (0x2124, 0x2124);
    (0x2126, 0x2126); (0x2128, 0x2128); (0x212A, 0x212D); (0x212F, 0x2139); (0x213C, 0x213F); (0x2145, 0x2149);
    (0x214E, 0x214E); (0x2150, 0x2189); (0x2460, 0x249B); (0x24EA, 0x24FF); (0x2776, 0x2793); (0x2C00, 0x2CE4);
    (0x2CEB, 0x2CEE); (0x2CF2, 0x2CF3); (0x2CFD, 0x2CFD); (0x2D00, 0x2D25); (0x2D27, 0x2D27); (0x2D2D, 0x2D2D);
    (0x2D30, 0x2D67); (0x2D6F, 0x2D6F); (0x2D80, 0x2D96); (0x2DA0, 0x2DA6); (0x2DA8, 0x2DAE); (0x2DB0, 0x2DB6);
    (0x2DB8, 0x2DBE); (0x2DC0, 0x2DC6); (0x2DC8, 0x2DCE); (0x2DD0, 0x2DD6); (0x2DD8, 0x2DDE); (0x2E2F, 0x2E2F);
    (0x3005, 0x3007); (0x3021, 0x3029); (0x3031, 0x3035); (0x3038, 0x303C); (0x3041, 0x3096); (0x309D, 0x309F);
    (0x30A1, 0x30FA); (0x30FC, 0x30FF); (0x3105, 0x312F); (0x3131, 0x318E); (0x3192, 0x3195); (0x31A0, 0x31BF);
    (0x31F0, 0x31FF); (0x3220, 0x3229); (0x3248, 0x324F); (0x3251, 0x325F); (0x3280, 0x3289); (0x32B1, 0x32BF);
    (0x3400, 0x4DBF); (0x4E00, 0xA48C); (0xA4D0, 0xA4FD); (0xA500, 0xA60C); (0xA610, 0xA62B); (0xA640, 0xA66E);
    (0xA67F, 0xA69D); (0xA6A0, 0xA6EF); (0xA717, 0xA71F); (0xA722, 0xA788); (0xA78B, 0xA7CA); (0xA7D0, 0xA7D1);
    (0xA7D3, 0xA7D3); (0xA7D5, 0xA7D9); (0xA7F2, 0xA801); (0xA803, 0xA805); (0xA807, 0xA80A); (0xA80C, 0xA822);
    (0xA830, 0xA835); (0xA840, 0xA873); (0xA882, 0xA8B3); (0xA8D0, 0xA8D9); (0xA8F2, 0xA8F7); (0xA8FB, 0xA8FB);
    (0xA8FD, 0xA8FE); (0xA900, 0xA925); (0xA930, 0xA946); (0xA960, 0xA97C); (0xA984, 0xA9B2); (0xA9CF, 0xA9D9);
    (0xA9E0, 0xA9E4); (0xA9E6, 0xA9FE); (0xAA00, 0xAA28); (0xAA40, 0xAA42); (0xAA44, 0xAA4B); (0xAA50, 0xAA59);
    (0xAA60, 0xAA76); (0xAA7A, 0xAA7A); (0xAA7E, 0xAAAF); (0xAAB1, 0xAAB1); (0xAAB5, 0xAAB6); (0xAAB9, 0xAABD);
    (0xAAC0, 0xAAC0); (0xAAC2, 0xAAC2); (0xAADB, 0xAADD); (0xAAE0, 0xAAEA); (0xAAF2, 0xAAF4); (0xAB01, 0xAB06);
    (0xAB09, 0xAB0E); (0xAB11, 0xAB16); (0xAB20, 0xAB26); (0xAB28, 0xAB2E); (0xAB30, 0xAB5A); (0xAB5C, 0xAB69);
    (0xAB70, 0xABE2); (0xABF0, 0xABF9); (0xAC00, 0xD7A3); (0xD7B0, 0xD7C6); (0xD7CB, 0xD7FB); (0xF900, 0xFA6D);
    (0xFA70, 0xFAD9); (0xFB00, 0xFB06); (0xFB13, 0xFB17); (0xFB1D, 0xFB1D); (0xFB1F, 0xFB28); (0xFB2A, 0xFB36);
    (0xFB38, 0xFB3C); (0xFB3E, 0xFB3E); (0xFB40, 0xFB41); (0xFB43, 0xFB44); (0xFB46, 0xFBB1); (0xFBD3, 0xFD3D);
    (0xFD50, 0xFD8F); (0xFD92, 0xFDC7); (0xFDF0, 0xFDFB); (0xFE70, 0xFE74); (0xFE76, 0xFEFC); (0xFF10, 0xFF19);
    (0xFF21, 0xFF3A); (0xFF41, 0xFF5A); (0xFF66, 0xFFBE); (0xFFC2, 0xFFC7); (0xFFCA, 0xFFCF); (0xFFD2, 0xFFD7);
    (0xFFDA, 0xFFDC); (0x10000, 0x1000B); (0x1000D, 0x10026); (0x10028, 0x1003A); (0x1003C, 0x1003D); (0x1003F, 0x1004D);
    (0x10050, 0x1005D); (0x10080, 0x100FA); (0x10107, 0x10133); (0x10140, 0x10178); (0x1018A, 0x1018B); (0x10280, 0x1029C);
    (0x102A0, 0x102D0); (0x102E1, 0x102FB); (0x10300, 0x10323); (0x1032D, 0x1034A); (0x10350, 0x10375); (0x10380, 0x1039D);
    (0x103A0, 0x103C3); (0x103C8, 0x103CF); (0x103D1, 0x103D5); (0x10400, 0x1049D); (0x104A0, 0x104A9); (0x104B0, 0x104D3);
    (0x104D8, 0x104FB); (0x10500, 0x10527); (0x10530, 0x10563); (0x10570, 0x1057A); (0x1057C, 0x1058A); (0x1058C, 0x10592);
    (0x10594, 0x10595); (0x10597, 0x105A1); (0x105A3, 0x105B1); (0x105B3, 0x105B9); (0x105BB, 0x105BC); (0x10600, 0x10736);
    (0x10740, 0x10755); (0x10760, 0x10767); (0x10780, 0x10785); (0x10787, 0x107B0); (0x107B2, 0x107BA); (0x10800, 0x10805);
    (0x10808, 0x10808); (0x1080A, 0x10835); (0x10837, 0x10838); (0x1083C, 0x1083C); (0x1083F, 0x10855); (0x10858, 0x10876);
    (0x10879, 0x1089E); (0x108A7, 0x108AF); (0x108E0, 0x108F2); (0x108F4, 0x108F5); (0x108FB, 0x1091B); (0x10920, 0x10939);
    (0x10980, 0x109B7); (0x109BC, 0x109CF); (0x109D2, 0x10A00); (0x10A10, 0x10A13); (0x10A15, 0x10A17); (0x10A19, 0x10A35);
    (0x10A40, 0x10A48); (0x10A60, 0x10A7E); (0x10A80, 0x10A9F); (0x10AC0, 0x10AC7); (0x10AC9, 0x10AE4); (0x10AEB, 0x10AEF);
    (0x10B00, 0x10B35); (0x10B40, 0x10B55); (0x10B58, 0x10B72); (0x10B78, 0x10B91); (0x10BA9, 0x10BAF); (0x10C00, 0x10C48);
    (0x10C80, 0x10CB2); (0x10CC0, 0x10CF2); (0x10CFA, 0x10D23); (0x10D30, 0x10D39); (0x10E60, 0x10E7E); (0x10E80, 0x10EA9);
    (0x10EB0, 0x10EB1); (0x10F00, 0x10F27); (0x10F30, 0x10F45); (0x10F51, 0x10F54); (0x10F70, 0x10F81); (0x10FB0, 0x10FCB);
    (0x10FE0, 0x10FF6); (0x11003, 0x11037); (0x11052, 0x1106F); (0x11071, 0x11072); (0x11075, 0x11075); (0x11083, 0x110AF);
    (0x110D0, 0x110E8); (0x110F0, 0x110F9); (0x11103, 0x11126); (0x11136, 0x1113F); (0x11144, 0x11144); (0x11147, 0x11147);
    (0x11150, 0x11172); (0x11176, 0x11176); (0x11183, 0x111B2); (0x111C1, 0x111C4); (0x111D0, 0x111DA); (0x111DC, 0x111DC);
    (0x111E1, 0x111F4); (0x11200, 0x11211); (0x11213, 0x1122B); (0x11280, 0x11286); (0x11288, 0x11288); (0x1128A, 0x1128D);
    (0x1128F, 0x1129D); (0x1129F, 0x112A8); (0x112B0, 0x112DE); (0x112F0, 0x112F9); (0x11305, 0x1130C); (0x1130F, 0x11310);
    (0x11313, 0x11328); (0x1132A, 0x11330); (0x11332, 0x11333); (0x11335, 0x11339); (0x1133D, 0x1133D); (0x11350, 0x11350);
    (0x1135D, 0x11361); (0x11400, 0x11434); (0x11447, 0x1144A); (0x11450, 0x11459); (0x1145F, 0x11461); (0x11480, 0x114AF);
    (0x114C4, 0x114C5); (0x114C7, 0x114C7); (0x114D0, 0x114D9); (0x11580, 0x115AE); (0x115D8, 0x115DB); (0x11600, 0x1162F);
    (0x11644, 0x11644); (0x11650, 0x11659); (0x11680, 0x116AA); (0x116B8, 0x116B8); (0x116C0, 0x116C9); (0x11700, 0x1171A);
    (0x11730, 0x1173B); (0x11740, 0x11746); (0x11800, 0x1182B); (0x118A0, 0x118F2); (0x118FF, 0x11906); (0x11909, 0x11909);
    (0x1190C, 0x11913); (0x11915, 0x11916); (0x11918, 0x1192F); (0x1193F, 0x1193F); (0x11941, 0x11941); (0x11950, 0x11959);
    (0x119A0, 0x119A7); (0x119AA, 0x119D0); (0x119E1, 0x119E1); (0x119E3, 0x119E3); (0x11A00, 0x11A00); (0x11A0B, 0x11A32);
    (0x11A3A, 0x11A3A); (0x11A50, 0x11A50); (0x11A5C, 0x11A89); (0x11A9D, 0x11A9D); (0x11AB0, 0x11AF8); (0x11C00, 0x11C08);
    (0x11C0A, 0x11C2E); (0x11C40, 0x11C40); (0x11C50, 0x11C6C); (0x11C72, 0x11C8F); (0x11D00, 0x11D06); (0x11D08, 0x11D09);
    (0x11D0B, 0x11D30); (0x11D46, 0x11D46); (0x11D50, 0x11D59); (0x11D60, 0x11D65); (0x11D67, 0x11D68); (0x11D6A, 0x11D89);
    (0x11D98, 0x11D98); (0x11DA0, 0x11DA9); (0x11EE0, 0x11EF2); (0x11FB0, 0x11FB0); (0x11FC0, 0x11FD4); (0x12000, 0x12399);
    (0x12400, 0x1246E); (0x12480, 0x12543); (0x12F90, 0x12FF0); (0x13000, 0x1342E); (0x14400, 0x14646); (0x16800, 0x16A38);
    (0x16A40, 0x16A5E); (0x16A60, 0x16A69); (0x16A70, 0x16ABE); (0x16AC0, 0x16AC9); (0x16AD0, 0x16AED); (0x16B00, 0x16B2F);
    (0x16B40, 0x16B43); (0x16B50, 0x16B59); (0x16B5B, 0x16B61); (0x16B63, 0x16B77); (0x16B7D, 0x16B8F); (0x16E40, 0x16E96);
    (0x16F00, 0x16F4A); (0x16F50, 0x16F50); (0x16F93, 0x16F9F); (0x16FE0, 0x16FE1); (0x16FE3, 0x16FE3); (0x17000, 0x187F7);
    (0x18800, 0x18CD5); (0x18D00, 0x18D08); (0x1AFF0, 0x1AFF3); (0x1AFF5, 0x1AFFB); (0x1AFFD, 0x1AFFE); (0x1B000, 0x1B122);
    (0x1B150, 0x1B152); (0x1B164, 0x1B167); (0x1B170, 0x1B2FB); (0x1BC00, 0x1BC6A); (0x1BC70, 0x1BC7C); (0x1BC80, 0x1BC88);
    (0x1BC90, 0x1BC99); (0x1D2E0, 0x1D2F3); (0x1D360, 0x1D378); (0x1D400, 0x1D454); (0x1D456, 0x1D49C); (0x1D49E, 0x1D49F);
    (0x1D4A2, 0x1D4A2); (0x1D4A5, 0x1D4A6); (0x1D4A9, 0x1D4AC); (0x1D4AE, 0x1D4B9); (0x1D4BB, 0x1D4BB); (0x1D4BD, 0x1D4C3);
    (0x1D4C5, 0x1D505); (0x1D507, 0x1D50A); (0x1D50D, 0x1D514); (0x1D516, 0x1D51C); (0x1D51E, 0x1D539); (0x1D53B, 0x1D53E);
    (0x1D540, 0x1D544); (0x1D546, 0x1D546); (0x1D54A, 0x1D550); (0x1D552, 0x1D6A5); (0x1D6A8, 0x1D6C0); (0x1D6C2, 0x1D6DA);
    (0x1D6DC, 0x1D6FA); (0x1D6FC, 0x1D714); (0x1D716, 0x1D734); (0x1D736, 0x1D74E); (0x1D750, 0x1D76E); (0x1D770, 0x1D788);
    (0x1D78A, 0x1D7A8); (0x1D7AA, 0x1D7C2); (0x1D7C4, 0x1D7CB); (0x1D7CE, 0x1D7FF); (0x1DF00, 0x1DF1E); (0x1E100, 0x1E12C);
    (0x1E137, 0x1E13D); (0x1E140, 0x1E149); (0x1E14E, 0x1E14E); (0x1E290, 0x1E2AD); (0x1E2C0, 0x1E2EB); (0x1E2F0, 0x1E2F9);
    (0x1E7E0, 0x1E7E6); (0x1E7E8, 0x1E7EB); (0x1E7ED, 0x1E7EE); (0x1E7F0, 0x1E7FE); (0x1E800, 0x1E8C4); (0x1E8C7, 0x1E8CF);
    (0x1E900, 0x1E943); (0x1E94B, 0x1E94B); (0x1E950, 0x1E959); (0x1EC71, 0x1ECAB); (0x1ECAD, 0x1ECAF); (0x1ECB1, 0x1ECB4);
    (0x1ED01, 0x1ED2D); (0x1ED2F, 0x1ED3D); (0x1EE00, 0x1EE03); (0x1EE05, 0x1EE1F); (0x1EE21, 0x1EE22); (0x1EE24, 0x1EE24);
    (0x1EE27, 0x1EE27); (0x1EE29, 0x1EE32); (0x1EE34, 0x1EE37); (0x1EE39, 0x1EE39); (0x1EE3B, 0x1EE3B); (0x1EE42, 0x1EE42);
    (0x1EE47, 0x1EE47); (0x1EE49, 0x1EE49); (0x1EE4B, 0x1EE4B); (0x1EE4D, 0x1EE4F); (0x1EE51, 0x1EE52); (0x1EE54, 0x1EE54);
    (0x1EE57, 0x1EE57); (0x1EE59, 0x1EE59); (0x1EE5B, 0x1EE5B); (0x1EE5D, 0x1EE5D); (0x1EE5F, 0x1EE5F); (0x1EE61, 0x1EE62);
    (0x1EE64, 0x1EE64); (0x1EE67, 0x1EE6A); (0x1EE6C, 0x1EE72); (0x1EE74, 0x1EE77); (0x1EE79, 0x1EE7C); (0x1EE7E, 0x1EE7E);
    (0x1EE80, 0x1EE89); (0x1EE8B, 0x1EE9B); (0x1EEA1, 0x1EEA3); (0x1EEA5, 0x1EEA9); (0x1EEAB, 0x1EEBB); (0x1F100, 0x1F10C);
    (0x1FBF0, 0x1FBF9); (0x20000, 0x2A6DF); (0x2A700, 0x2B738); (0x2B740, 0x2B81D); (0x2B820, 0x2CEA1); (0x2CEB0, 0x2EBE0);
    (0x2F800, 0x2FA1D); (0x30000, 0x3134A) ].

Definition is_word (c : N) : bool :=
  existsb (fun r => in_range (fst r) (snd r) c) word_ranges.

(** Case-insensitive comparison of a text character with a pattern literal:
    [sre] lower-cases both and also accepts the characters of its table of
    case equivalences.  The program's literals are ASCII; the code points
    that lower-case to an ASCII letter are the capitals, U+0130 (to i) and
    U+212A (to k), and the equivalences add U+0131 for i and U+017F for s. *)
Definition tolower (c : N) : N :=
  if in_range 0x41 0x5A c then c + 32
  else if c =? 0x130 then 0x69
  else if c =? 0x212A then 0x6B
  else c.

Definition ignorecase_fixes (lo : N) : list N :=
  if lo =? 0x69 then [0x131] else if lo =? 0x73 then [0x17F] else [].

Definition eq_ignorecase (pat c : N) : bool :=
  let lo := tolower pat in
  (tolower c =? lo) || existsb (N.eqb c) (ignorecase_fixes lo).

End Unicode.

(** ** Exceptions

    A computation of the program either returns or raises. *)

Inductive exn := IndexError | KeyError | ValueError | TypeError | AttributeError.

Inductive res (A : Type) : Type :=
| Ok (a : A)
| Raise (e : exn).
Arguments Ok {A} a.
Arguments Raise {A} e.

#[global] Instance res_ret : MRet res := fun _ a => Ok a.
#[global] Instance res_bind : MBind res := fun _ _ f m =>
  match m with Ok a => f a | Raise e => Raise e end.

(** ** The [str] methods the program uses *)

Fixpoint lstrip (s : str) : str :=
  match s with
  | c :: s' => if Unicode.is_space c then lstrip s' else s
  | [] => []
  end.

Definition rstrip (s : str) : str := rev (lstrip (rev s)).

(** [s.strip()] *)
Definition strip (s : str) : str := rstrip (lstrip s).

(** [s.splitlines()]: a line ends at a line boundary, CR LF counting as
    one; no empty last line is produced after a final boundary. *)
Fixpoint splitlines (s : str) : list str :=
  match s with
  | [] => []
  | c :: s' =>
      if Unicode.is_linebreak c then
        [] :: match s' with
              | c' :: s'' =>
                  if (c =? 0x0D) && (c' =? 0x0A) then splitlines s''
                  else splitlines s'
              | [] => []
              end
      else
        match splitlines s' with
        | [] => [[c]]
        | l :: ls => (c :: l) :: ls
        end
  end.

(** [sep.join(parts)] *)
Fixpoint join (sep : str) (parts : list str) : str :=
  match parts with
  | [] => []
  | [p] => p
  | p :: ps => p ++ sep ++ join sep ps
  end.

(** [int(s)] on a string of decimal digits.  The other spellings [int]
    accepts (sign, surrounding blanks, underscores) are not needed: the
    program converts only what [\d] has matched, and anything else is
    reported here as the [ValueError] of a failed conversion. *)
Fixpoint int_digits (acc : N) (s : str) : option N :=
  match s with
  | [] => Some acc
  | c :: s' =>
      if Unicode.is_digit c then int_digits (10 * acc + Unicode.digit_value c) s'
      else None
  end.

Definition int (s : str) : res Z :=
  match s with
  | [] => Raise ValueError
  | _ => match int_digits 0 s with
         | Some n => Ok (Z.of_N n)
         | None => Raise ValueError
         end
  end.

(** [lines[i]] with Python's indexing: a negative index counts from the
    end, an index outside the list raises. *)
Definition getitem {A} (l : list A) (i : Z) : res A :=
  let j := (if i <? 0 then i + Z.of_nat (length l) else i)%Z in
  if (j <? 0)%Z then Raise IndexError
  else match l !! Z.to_nat j with
       | Some x => Ok x
       | None => Raise IndexError
       end.

(** [range(start, stop, -1)] *)
Definition range_down (start stop : Z) : list Z :=
  map (fun k => (start - Z.of_nat k)%Z) (seq 0 (Z.to_nat (start - stop))).

(** ** The [re] module: a backtracking matcher *)
Module Re.

Inductive cclass :=
| Dot                       (* [.]: anything but a newline *)
| Digit                     (* [\d] *)
| Space                     (* [\s] *)
| Range (lo hi : N).        (* [[A-Z]] *)

Definition in_class (cl : cclass) (c : N) : bool :=
  match cl with
  | Dot => negb (c =? 0x0A)
  | Digit => Unicode.is_digit c
  | Space => Unicode.is_space c
  | Range lo hi => in_range lo hi c
  end.

(** The fragment of the pattern language the program uses.  Its
    quantifiers are all applied to a single character class. *)
Inductive regex :=
| Eps
| Chr (c : N)                                         (* a literal *)
| In (cl : cclass)
| Seq (r1 r2 : regex)
| Alt (r1 r2 : regex)                                 (* [r1|r2] *)
| Rep (greedy : bool) (lo : nat) (hi : option nat) (cl : cclass)
| Group (n : nat) (r : regex)                         (* [(r)], numbered *)
| Bol                                                 (* [^] *)
| Eol                                                 (* [$] *)
| WordB                                               (* [\b] *)
| NotAhead (r : regex).                               (* [(?!r)] *)

(** A position of the matcher in the subject string. *)
Record cursor := Cursor {
  c_pos : nat;                 (* index of the next character *)
  c_prev : option N;           (* the character before it *)
  c_rest : str;                (* the characters from it on *)
  c_groups : list (nat * str)  (* groups closed so far, latest first *)
}.

Definition advance (c : N) (rest : str) (st : cursor) : cursor :=
  Cursor (S (c_pos st)) (Some c) rest (c_groups st).

Definition wordish (o : option N) : bool :=
  match o with Some c => Unicode.is_word c | None => false end.

Definition at_word_boundary (st : cursor) : bool :=
  xorb (wordish (c_prev st)) (wordish (head (c_rest st))).

(** [$] without MULTILINE: at the end, or before a newline that ends the
    string. *)
Definition at_end (rest : str) : bool :=
  match rest with
  | [] => true
  | [c] => c =? 0x0A
  | _ => false
  end.

(** A literal against a character of the subject, under the IGNORECASE
    flag [ic] or without it. *)
Definition lit_eq (ic : bool) (a c : N) : bool :=
  if ic then Unicode.eq_ignorecase a c else c =? a.

Definition orelse {A} (a : option A) (b : option A) : option A :=
  match a with Some x => Some x | None => b end.

(** Closing group [n], opened at [st], at [st1]: the group holds the
    characters between the two positions. *)
Definition close_group (n : nat) (st st1 : cursor) : cursor :=
  Cursor (c_pos st1) (c_prev st1) (c_rest st1)
    ((n, take (c_pos st1 - c_pos st) (c_rest st)) :: c_groups st1).

(** A quantified class: between [lo] and [hi] characters of [cl], the
    longest run first when greedy, the shortest first when lazy, each
    alternative tried against the continuation [k]. *)
Fixpoint rep (greedy : bool) (cl : cclass) (lo : nat) (hi : option nat)
    (gs : list (nat * str)) (pos : nat) (prev : option N) (rest : str)
    (k : cursor -> option cursor) {struct rest} : option cursor :=
  let stop := k (Cursor pos prev rest gs) in
  let more :=
    match rest with
    | c :: rest' =>
        if in_class cl c && negb (bool_decide (hi = Some 0%nat)) then
          rep greedy cl (pred lo) (pred <$> hi) gs (S pos) (Some c) rest' k
        else None
    | [] => None
    end in
  match lo with
  | S _ => more
  | O => if greedy then orelse more stop else orelse stop more
  end.

(** Matching in continuation-passing style: [k] is the rest of the
    pattern, and a failure of [k] makes the matcher try its next
    alternative. [ic] is the IGNORECASE flag. *)
Fixpoint rmatch (ic : bool) (r : regex) (st : cursor)
    (k : cursor -> option cursor) : option cursor :=
  match r with
  | Eps => k st
  | Chr a =>
      match c_rest st with
      | c :: rest =>
          if lit_eq ic a c then k (advance c rest st) else None
      | [] => None
      end
  | In cl =>
      match c_rest st with
      | c :: rest => if in_class cl c then k (advance c rest st) else None
      | [] => None
      end
  | Seq r1 r2 => rmatch ic r1 st (fun st1 => rmatch ic r2 st1 k)
  | Alt r1 r2 => orelse (rmatch ic r1 st k) (rmatch ic r2 st k)
  | Rep greedy lo hi cl =>
      rep greedy cl lo hi (c_groups st) (c_pos st) (c_prev st) (c_rest st) k
  | Group n r => rmatch ic r st (fun st1 => k (close_group n st st1))
  | Bol => if (c_pos st =? 0)%nat then k st else None
  | Eol => if at_end (c_rest st) then k st else None
  | WordB => if at_word_boundary st then k st else None
  | NotAhead r =>
      match rmatch ic r st Some with
      | Some _ => None
      | None => k st
      end
  end.

(** A match object. *)
Record match_obj := Match {
  m_start : nat;
  m_end : nat;
  m_groups : list (nat * str)
}.

(** [m.group(n)] for [n >= 1]: [None] when the group took no part. *)
Definition group (m : match_obj) (n : nat) : option str :=
  snd <$> find (fun g => (fst g =? n)%nat) (m_groups m).

(** [pattern.match] at a given position of the subject. *)
Definition match_at (ic : bool) (r : regex) (pos : nat) (prev : option N)
    (rest : str) : option match_obj :=
  match rmatch ic r (Cursor pos prev rest []) Some with
  | Some st => Some (Match pos (c_pos st) (c_groups st))
  | None => None
  end.

(** [re.search]: the match at the leftmost position that has one. *)
Fixpoint search_from (ic : bool) (r : regex) (pos : nat) (prev : option N)
    (rest : str) : option match_obj :=
  match match_at ic r pos prev rest with
  | Some m => Some m
  | None =>
      match rest with
      | c :: rest' => search_from ic r (S pos) (Some c) rest'
      | [] => None
      end
  end.

Definition search (ic : bool) (r : regex) (s : str) : option match_obj :=
  search_from ic r 0 None s.

(** [re.finditer]: the matches from left to right, each search resuming
    where the previous match ended.  [skip] counts the characters still
    covered by the previous match.  None of the program's patterns matches
    the empty string, so the special rules for empty matches play no part;
    here such a match would just let the scan move on by one character. *)
Fixpoint finditer_from (ic : bool) (r : regex) (skip pos : nat)
    (prev : option N) (rest : str) : list match_obj :=
  match skip with
  | S skip' =>
      match rest with
      | c :: rest' => finditer_from ic r skip' (S pos) (Some c) rest'
      | [] => []
      end
  | O =>
      match match_at ic r pos prev rest with
      | Some m =>
          m :: match rest with
               | c :: rest' =>
                   finditer_from ic r (pred (m_end m - pos)) (S pos) (Some c) rest'
               | [] => []
               end
      | None =>
          match rest with
          | c :: rest' => finditer_from ic r 0 (S pos) (Some c) rest'
          | [] => []
          end
      end
  end.

Definition finditer (ic : bool) (r : regex) (s : str) : list match_obj :=
  finditer_from ic r 0 0 None s.

(** [re.findall] for a pattern with exactly one group: the list of what
    the group matched. *)
Definition findall1 (ic : bool) (r : regex) (s : str) : list str :=
  omap (fun m => group m 1) (finditer ic r s).

(** [re.sub(r, '', s)]: the subject with every match removed. *)
Fixpoint sub_empty_from (ic : bool) (r : regex) (skip pos : nat)
    (prev : option N) (rest : str) : str :=
  match skip with
  | S skip' =>
      match rest with
      | c :: rest' => sub_empty_from ic r skip' (S pos) (Some c) rest'
      | [] => []
      end
  | O =>
      match match_at ic r pos prev rest with
      | Some m =>
          match (m_end m - pos)%nat, rest with
          | S n, c :: rest' => sub_empty_from ic r n (S pos) (Some c) rest'
          | _, c :: rest' => c :: sub_empty_from ic r 0 (S pos) (Some c) rest'
          | _, [] => []
          end
      | None =>
          match rest with
          | c :: rest' => c :: sub_empty_from ic r 0 (S pos) (Some c) rest'
          | [] => []
          end
      end
  end.

Definition sub_empty (ic : bool) (r : regex) (s : str) : str :=
  sub_empty_from ic r 0 0 None s.

(** A literal string as a pattern. *)
Definition lit (s : string) : regex :=
  foldr (fun c r => Seq (Chr c) r) Eps (py s).

Definition star (cl : cclass) : regex := Rep true 0 None cl.
Definition plus (cl : cclass) : regex := Rep true 1 None cl.
Definition plus_lazy (cl : cclass) : regex := Rep false 1 None cl.

End Re.

Import Re.

Definition chr (a : ascii) : N := N_of_ascii a.

(** A pattern written as the sequence of its items. *)
Definition cat (rs : list regex) : regex := foldr Seq Eps rs.

(** ** The program *)

(** The patterns of [IGNORE_COMMENT_PATTERNS], compiled with [re.I]. *)
Definition IGNORE_COMMENT_PATTERNS : list regex :=
  [ (* ^\s*(created by|date|time)\b *)
    cat [Bol; star Space;
         Group 1 (Alt (lit "created by") (Alt (lit "date") (lit "time")));
         WordB];
    (* ^\s*(operation|timely)\b *)
    cat [Bol; star Space; Group 1 (Alt (lit "operation") (lit "timely")); WordB];
    (* \bsend to home\b *)
    cat [WordB; lit "send to home"; WordB];
    (* ^\s*inch\s*$ *)
    cat [Bol; star Space; lit "inch"; star Space; Eol];
    (* \bopen mind *)
    cat [WordB; lit "open mind"] ].

(** [^\s*[A-Z]\s*-\s*] *)
Definition LETTER_DASH : regex :=
  cat [Bol; star Space; In (Range (chr "A") (chr "Z")); star Space;
       Chr (chr "-"); star Space].

(** [^\s*O\d+\s*\((.+?)\)\s*$] *)
Definition HEADER : regex :=
  cat [Bol; star Space; Chr (chr "O"); plus Digit; star Space;
       Chr (chr "("); Group 1 (plus_lazy Dot); Chr (chr ")"); star Space; Eol].

(** [^\s*\((.+?)\)\s*$] *)
Definition STANDALONE : regex :=
  cat [Bol; star Space;
       Chr (chr "("); Group 1 (plus_lazy Dot); Chr (chr ")"); star Space; Eol].

(** [\((.+?)\)] *)
Definition COMMENT : regex :=
  cat [Chr (chr "("); Group 1 (plus_lazy Dot); Chr (chr ")")].

(** [T(\d{2})(\d{2})] *)
Definition LATHE : regex :=
  cat [Chr (chr "T"); Group 1 (Rep true 2 (Some 2%nat) Digit);
       Group 2 (Rep true 2 (Some 2%nat) Digit)].

(** [T(\d{1,2})(?!\d)] *)
Definition MILL : regex :=
  cat [Chr (chr "T"); Group 1 (Rep true 1 (Some 2%nat) Digit);
       NotAhead (In Digit)].

(** Calling a [str] method on what [m.group(n)] returned: on [None] the
    attribute lookup raises. *)
Definition str_method (o : option str) : res str :=
  match o with Some s => Ok s | None => Raise AttributeError end.

(** Passing what [m.group(n)] returned to [int]. *)
Definition int_arg (o : option str) : res str :=
  match o with Some s => Ok s | None => Raise TypeError end.

(** [re.sub(r'^\s*[A-Z]\s*-\s*', '', s)] *)
Definition drop_letter_dash (s : str) : str := sub_empty false LETTER_DASH s.

Definition is_noise_comment (txt : str) : bool :=
  let s := strip txt in
  let s := drop_letter_dash s in
  if (length s <? 3)%nat then true
  else existsb (fun pat => bool_decide (is_Some (search true pat s)))
         IGNORE_COMMENT_PATTERNS.

(** The first loop of [extract_program_name]; [Ok None] when the loop ends
    without returning. *)
Fixpoint scan_headers (lines : list str) : res (option str) :=
  match lines with
  | [] => Ok None
  | line :: lines' =>
      match search false HEADER line with
      | Some m => g ← str_method (group m 1); Ok (Some (strip g))
      | None => scan_headers lines'
      end
  end.

(** The second loop, with its flag. *)
Fixpoint scan_standalone (seen_percent : bool) (lines : list str)
    : res (option str) :=
  match lines with
  | [] => Ok None
  | line :: lines' =>
      if bool_decide (chr "%" ∈ line) then scan_standalone true lines'
      else if seen_percent then
        match search false STANDALONE line with
        | Some m => g ← str_method (group m 1); Ok (Some (strip g))
        | None => scan_standalone seen_percent lines'
        end
      else scan_standalone seen_percent lines'
  end.

Definition extract_program_name (text : str) : res (option str) :=
  r ← scan_headers (splitlines text);
  match r with
  | Some name => Ok (Some name)
  | None => scan_standalone false (splitlines text)
  end.

Definition _comments_on_line (line : str) : list str :=
  findall1 false COMMENT line.

(** The loop [for c in reversed(...)] of [_nearest_good_comment], which is
    written out twice in the source. *)
Fixpoint first_good (cs : list str) : option str :=
  match cs with
  | [] => None
  | c :: cs' =>
      let cand := drop_letter_dash (strip c) in
      if negb (is_noise_comment cand) then Some cand else first_good cs'
  end.

(** The loop over [j]. *)
Fixpoint look_back (lines : list str) (js : list Z) : res (option str) :=
  match js with
  | [] => Ok None
  | j :: js' =>
      line ← getitem lines j;
      match first_good (rev (_comments_on_line line)) with
      | Some cand => Ok (Some cand)
      | None => look_back lines js'
      end
  end.

Definition _nearest_good_comment (lines : list str) (start_idx : Z)
    (search_back : Z) : res str :=
  line ← getitem lines start_idx;
  match first_good (rev (_comments_on_line line)) with
  | Some cand => Ok cand
  | None =>
      r ← look_back lines
            (range_down (start_idx - 1)
                        (Z.max (-1) (start_idx - search_back - 1)));
      Ok (default [] r)
  end.

(** The default of the parameter [search_back]. *)
Definition search_back_default : Z := 25.

(** [tools.setdefault(k, v)] *)
Definition setdefault (tools : gmap Z (list N)) (k : Z) (v : str)
    : gmap Z (list N) :=
  match tools !! k with
  | Some _ => tools
  | None => <[k := v]> tools
  end.

(** The body shared by the two inner loops of [extract_tools]. *)
Fixpoint record_matches (lines : list str) (idx : nat) (ms : list match_obj)
    (tools : gmap Z (list N)) : res (gmap Z (list N)) :=
  match ms with
  | [] => Ok tools
  | m :: ms' =>
      g ← int_arg (group m 1);
      tnum ← int g;
      desc ← _nearest_good_comment lines (Z.of_nat idx) search_back_default;
      record_matches lines idx ms' (setdefault tools tnum desc)
  end.

(** The loop over [enumerate(lines)]. *)
Fixpoint scan_lines (lines : list str) (idx : nat) (todo : list str)
    (tools : gmap Z (list N)) : res (gmap Z (list N)) :=
  match todo with
  | [] => Ok tools
  | line :: todo' =>
      tools1 ← record_matches lines idx (finditer false LATHE line) tools;
      tools2 ← record_matches lines idx (finditer false MILL line) tools1;
      scan_lines lines (S idx) todo' tools2
  end.

Definition extract_tools (text : str) : res (gmap Z (list N)) :=
  let lines := splitlines text in
  scan_lines lines 0 lines ∅.

(** The decimal digits of a natural number. *)
Fixpoint uint_digits (d : Decimal.uint) : str :=
  match d with
  | Decimal.Nil => []
  | Decimal.D0 d' => 0x30 :: uint_digits d'
  | Decimal.D1 d' => 0x31 :: uint_digits d'
  | Decimal.D2 d' => 0x32 :: uint_digits d'
  | Decimal.D3 d' => 0x33 :: uint_digits d'
  | Decimal.D4 d' => 0x34 :: uint_digits d'
  | Decimal.D5 d' => 0x35 :: uint_digits d'
  | Decimal.D6 d' => 0x36 :: uint_digits d'
  | Decimal.D7 d' => 0x37 :: uint_digits d'
  | Decimal.D8 d' => 0x38 :: uint_digits d'
  | Decimal.D9 d' => 0x39 :: uint_digits d'
  end.

Definition decimal (n : N) : str := uint_digits (N.to_uint n).

Definition zero_pad (width : nat) (s : str) : str :=
  replicate (width - length s) 0x30 ++ s.

(** [f"{t:02d}"]: the sign counts in the width of two. *)
Definition format_02d (t : Z) : str :=
  if (t <? 0)%Z then chr "-" :: zero_pad 1 (decimal (Z.abs_N t))
  else zero_pad 2 (decimal (Z.to_N t)).

(** [tools[t]] *)
Definition getkey (tools : gmap Z (list N)) (t : Z) : res str :=
  match tools !! t with
  | Some d => Ok d
  | None => Raise KeyError
  end.

(** [sorted(tools.keys())] *)
Definition sorted_keys (tools : gmap Z (list N)) : list Z :=
  merge_sort Z.le (map fst (map_to_list tools)).

(** [x or d] on an optional string: [None] and [""] are both false. *)
Definition or_else (x : option str) (d : str) : str :=
  match x with
  | Some (c :: s) => c :: s
  | _ => d
  end.

(** The last loop of [format_tool_list], appending to [lines]. *)
Fixpoint append_tool_lines (tools : gmap Z (list N)) (ts : list Z)
    (lines : list str) : res (list str) :=
  match ts with
  | [] => Ok lines
  | t :: ts' =>
      d ← getkey tools t;
      let desc := strip d in
      match desc with
      | _ :: _ =>
          append_tool_lines tools ts'
            (lines ++ [py "T" ++ format_02d t ++ py " - " ++ desc])
      | [] => append_tool_lines tools ts' (lines ++ [py "T" ++ format_02d t])
      end
  end.

Definition format_tool_list (program_name : option str)
    (tools : gmap Z (list N)) : res str :=
  let header_name := or_else program_name (py "UNKNOWN PROGRAM") in
  let lines := [py "Tool List for ( " ++ header_name ++ py " )."; []] in
  if bool_decide (tools = ∅) then
    Ok (join (py (String "010" EmptyString)) (lines ++ [py "(No tools found)"]))
  else
    lines' ← append_tool_lines tools (sorted_keys tools) lines;
    Ok (join (py (String "010" EmptyString)) lines').

(** * Specification

    What the claims speak of, in terms of its own: a declarative reading of
    patterns, the shapes of the lines and tool calls the program looks for,
    and the results the specification describes. *)

(** ** A declarative reading of patterns *)
Module ReSem.

(** The character before the position reached after reading [w]. *)
Fixpoint prev_after (prev : option N) (w : str) : option N :=
  match w with
  | [] => prev
  | c :: w' => prev_after (Some c) w'
  end.

(** The cursor [st] after reading [w], with [rest] left. *)
Definition moved (st : cursor) (w rest : str) : cursor :=
  Cursor (length w + c_pos st) (prev_after (c_prev st) w) rest (c_groups st).

(** [n] respects the upper bound of a quantifier. *)
Definition within (hi : option nat) (n : nat) : Prop :=
  match hi with Some h => (n ≤ h)%nat | None => True end.

(** [denote ic r st st1]: pattern [r] can take the matcher from [st] to
    [st1]. Which of several ways the matcher prefers is not part of it. *)
Fixpoint denote (ic : bool) (r : regex) (st st1 : cursor) : Prop :=
  match r with
  | Eps => st1 = st
  | Chr a =>
      ∃ c rest, c_rest st = c :: rest ∧ lit_eq ic a c = true
                ∧ st1 = advance c rest st
  | In cl =>
      ∃ c rest, c_rest st = c :: rest ∧ in_class cl c = true
                ∧ st1 = advance c rest st
  | Seq r1 r2 => ∃ st', denote ic r1 st st' ∧ denote ic r2 st' st1
  | Alt r1 r2 => denote ic r1 st st1 ∨ denote ic r2 st st1
  | Rep _ lo hi cl =>
      ∃ w rest, c_rest st = w ++ rest ∧ forallb (in_class cl) w = true
                ∧ (lo ≤ length w)%nat ∧ within hi (length w)
                ∧ st1 = moved st w rest
  | Group n r => ∃ st', denote ic r st st' ∧ st1 = close_group n st st'
  | Bol => c_pos st = 0%nat ∧ st1 = st
  | Eol => at_end (c_rest st) = true ∧ st1 = st
  | WordB => at_word_boundary st = true ∧ st1 = st
  | NotAhead r' => (∀ st', ¬ denote ic r' st st') ∧ st1 = st
  end.

End ReSem.

Import ReSem.

(** ** The shapes of lines and of tool calls *)

(** Only whitespace. *)
Definition blank (w : str) : Prop := forallb Unicode.is_space w = true.

(** Only decimal digits. *)
Definition digits (w : str) : Prop := forallb Unicode.is_digit w = true.

(** What the pattern of the second strategy accepts.  Apart from blanks at
    either end, the line begins with an opening parenthesis and ends with a
    closing one; [content] is everything between these two, at least one
    character.  Nothing is asked of [content]: it may hold parentheses of
    its own, so that [(A) T1 M6 (B)] is such a line, with the content
    [A) T1 M6 (B].  For a given line the content is unique
    ([paren_line_unique]). *)
Definition paren_line (line content : str) : Prop :=
  ∃ ws ws', line = ws ++ chr "(" :: content ++ chr ")" :: ws'
            ∧ blank ws ∧ content ≠ [] ∧ blank ws'.

(** What the pattern of the first strategy accepts: blanks, the letter O,
    one or more digits, blanks, and then to the end of the line, apart from
    blanks, an opening parenthesis, [content] and a closing parenthesis.
    As in [paren_line], [content] is everything between the first opening
    parenthesis and the last closing one, at least one character, and may
    hold parentheses of its own: [O1 (A) X (B)] is such a line, with the
    content [A) X (B].  For a given line the content is unique
    ([o_number_line_unique]). *)
Definition o_number_line (line content : str) : Prop :=
  ∃ ws ds ws1 ws2,
    line = ws ++ chr "O" :: ds ++ ws1 ++ chr "(" :: content ++ chr ")" :: ws2
    ∧ blank ws ∧ ds ≠ [] ∧ digits ds ∧ blank ws1 ∧ content ≠ [] ∧ blank ws2.


(** The line contains a percent sign. *)
Definition has_percent (line : str) : Prop := chr "%" ∈ line.

(** No line holds a newline character. *)
Definition no_newline (lines : list str) : Prop := ∀ l, l ∈ lines → 0x0A ∉ l.

(** The string does not start with a digit. *)
Definition no_digit_next (rest : str) : Prop :=
  ∀ c, head rest = Some c → Unicode.is_digit c = false.

(** The match object of a lathe call [T d1 d2 d3 d4] found at [pos], and
    that of a mill call [T ds]. *)
Definition lathe_match (pos : nat) (d1 d2 d3 d4 : N) : match_obj :=
  Match pos (5 + pos) [(2%nat, [d3; d4]); (1%nat, [d1; d2])].

Definition mill_match (pos : nat) (ds : str) : match_obj :=
  Match pos (length ds + S pos) [(1%nat, ds)].


(** ** The tool numbers of a line *)

(** [int(m.group(1))] *)
Definition tool_number (m : match_obj) : res Z :=
  g ← int_arg (group m 1); int g.

(** The tool numbers of a list of matches. *)
Definition numbers (ms : list match_obj) : list Z :=
  omap (fun m => match tool_number m with Ok t => Some t | Raise _ => None end) ms.

(** The tool numbers a line invokes, as the program meets them: the lathe
    calls, then the mill calls. *)
Definition line_tools (line : str) : list Z :=
  numbers (finditer false LATHE line ++ finditer false MILL line).

(** ** The comment nearest to a line *)

(** The description of 4.3 of the specification, step by step: the
    candidates of a line are its comments, the last one first, each without
    its letter-dash prefix; the first that is not noise qualifies. *)
Definition candidates (line : str) : list str :=
  map (fun c => drop_letter_dash (strip c)) (rev (_comments_on_line line)).

(** The candidate of a line that qualifies, if any. *)
Definition qualifying (line : str) : option str :=
  find (fun cand => negb (is_noise_comment cand)) (candidates line).

(** The lines examined: the indexed line, then up to [backwindow] lines
    before it, the nearest first. *)
Definition examined (lines : list str) (index backwindow : nat) : list str :=
  omap (fun k => lines !! (index - k)%nat) (seq 0 (S (min index backwindow))).

(** The comment of the first examined line that has a qualifying one, or the
    empty string. *)
Definition nearest_comment (lines : list str) (index backwindow : nat) : str :=
  default [] (head (omap qualifying (examined lines index backwindow))).

(** ** The report *)

(** The string ["\n"]. *)
Definition newline : str := py (String "010" EmptyString).

(** A text given line by line, the lines joined by newlines. *)
Definition text_of (lines : list str) : str := join newline lines.

(** The header line of the report. *)
Definition header_line (name : option str) : str :=
  py "Tool List for ( "
  ++ match name with
     | None => py "UNKNOWN PROGRAM"
     | Some n => if bool_decide (n = []) then py "UNKNOWN PROGRAM" else n
     end
  ++ py " ).".

(** A tool's line, its description trimmed. *)
Definition tool_line (tools : gmap Z (list N)) (t : Z) : str :=
  let desc := strip (default [] (tools !! t)) in
  py "T" ++ format_02d t ++ (if bool_decide (desc = []) then [] else py " - " ++ desc).

(** A tool's line with the description as it stands in the map. *)
Definition tool_line_untrimmed (tools : gmap Z (list N)) (t : Z) : str :=
  let desc := default [] (tools !! t) in
  py "T" ++ format_02d t ++ (if bool_decide (desc = []) then [] else py " - " ++ desc).

(** The report as 4.5 of the specification lays it out, for the tool
    numbers [ks] in the order given, each tool printed by [line_of]. *)
Definition report_with (line_of : gmap Z (list N) → Z → str)
    (name : option str) (tools : gmap Z (list N)) (ks : list Z) : str :=
  join newline
    (header_line name :: [] ::
       match ks with
       | [] => [py "(No tools found)"]
       | _ => map (line_of tools) ks
       end).

Definition report := report_with tool_line.

(** ** Trimmed strings *)

(** A string does not start, or does not end, with whitespace. *)
Definition no_space_head (s : str) : Prop :=
  ∀ c, head s = Some c → Unicode.is_space c = false.

Definition no_space_last (s : str) : Prop :=
  ∀ c, last s = Some c → Unicode.is_space c = false.

(** A string that [strip] leaves as it is. *)
Definition trimmed (s : str) : Prop := strip s = s.

(** ** The command [Get Tool List] *)

(** What reading a file gave: its text, or the message of the exception
    that [open] or [read] raised. *)
Inductive read_result :=
| ReadOk (text : str)
| ReadError (message : str).

(** The three calls [get_tool_list] makes on the text of a file. *)
Definition tool_list_block (text : str) : res str :=
  program_name ← extract_program_name text;
  tools ← extract_tools text;
  format_tool_list program_name tools.

(** [f"[{os.path.basename(path)}]\n{body}\n"] *)
Definition file_block (name body : str) : str :=
  py "[" ++ name ++ py "]" ++ newline ++ body ++ newline.

(** The loop of [get_tool_list] over the selected files. [basename] stands
    for [os.path.basename], [read] for opening a file and reading it, and
    [n_selected] for [len(self.selected_files)]. *)
Fixpoint get_tool_list_loop (basename : list N → list N)
    (read : list N → read_result) (n_selected : nat) (paths : list str)
    (combined : list str) : res (list str) :=
  match paths with
  | [] => Ok combined
  | path :: paths' =>
      match read path with
      | ReadError e =>
          get_tool_list_loop basename read n_selected paths'
            (combined ++ [file_block (basename path) (py "Error reading file: " ++ e)])
      | ReadOk text =>
          block ← tool_list_block text;
          if (1 <? n_selected)%nat then
            get_tool_list_loop basename read n_selected paths'
              (combined ++ [file_block (basename path) block])
          else
            get_tool_list_loop basename read n_selected paths' (combined ++ [block])
      end
  end.

(** [get_tool_list]: the new content of the output pane, or [None] when no
    file is selected and the pane is left as it is. *)
Definition get_tool_list (basename : list N → list N)
    (read : list N → read_result) (selected_files : list str)
    : res (option str) :=
  match selected_files with
  | [] => Ok None
  | _ =>
      combined ← get_tool_list_loop basename read (length selected_files)
                   selected_files [];
      Ok (Some (join (newline ++ newline) combined))
  end.

(** ** Comments and lines *)

(** What a comment holds: at least one character, no newline, and no
    closing parenthesis after the first character. *)
Definition comment_body (c : str) : Prop :=
  c ≠ [] ∧ (0x0A ∉ c) ∧ (chr ")" ∉ tail c).

(** The match object of the comment [(c)] found at [pos]. *)
Definition comment_match (pos : nat) (c : str) : match_obj :=
  Match pos (S (length c + S pos)) [(1%nat, c)].

(** A string without line boundaries: [splitlines] leaves it whole. *)
Definition one_line (s : str) : Prop :=
  ∀ c, c ∈ s → Unicode.is_linebreak c = false.

(** What [get_tool_list] shows for one file: the report of its text, under
    the name of the file when several files are selected, or the message of
    the exception that reading it raised. *)
Definition shown_for (basename : list N → list N)
    (read : list N → read_result) (several : bool) (path block : str) : Prop :=
  match read path with
  | ReadError e =>
      block = file_block (basename path) (py "Error reading file: " ++ e)
  | ReadOk text =>
      ∃ b, tool_list_block text = Ok b
           ∧ block = if several then file_block (basename path) b else b
  end.

(** * Properties *)

(** ** The error monad *)

Lemma bind_Ok {A B} (m : res A) (f : A → res B) (b : B) :
  m ≫= f = Ok b ↔ ∃ a, m = Ok a ∧ f a = Ok b.
Proof.
  destruct m as [a|e]; simpl; split.
  - intros H. exists a. auto.
  - intros (a' & Ha & Hf). congruence.
  - intros H. discriminate.
  - intros (a' & Ha & _). discriminate.
Qed.

(** ** The matcher against the declarative reading of patterns *)
Module ReFacts.

Lemma within_0 hi : within hi 0.
Proof. destruct hi; simpl; lia. Qed.

Lemma within_pred hi n : within (pred <$> hi) n → hi ≠ Some 0%nat → within hi (S n).
Proof. destruct hi as [[|h]|]; simpl; intros; try congruence; lia. Qed.

Lemma within_S hi n : within hi (S n) → within (pred <$> hi) n ∧ hi ≠ Some 0%nat.
Proof. destruct hi as [[|h]|]; simpl; intros; split; try congruence; lia. Qed.

Lemma rep_sound rest : ∀ greedy cl lo hi gs pos prev k res,
  rep greedy cl lo hi gs pos prev rest k = Some res →
  ∃ w rest1, rest = w ++ rest1 ∧ forallb (in_class cl) w = true
    ∧ (lo ≤ length w)%nat ∧ within hi (length w)
    ∧ k (moved (Cursor pos prev rest gs) w rest1) = Some res.
Proof.
  induction rest as [|c rest IH]; intros greedy cl lo hi gs pos prev k res H.
  - simpl in H.
    assert (lo = 0%nat ∧ k (Cursor pos prev [] gs) = Some res) as [-> Hk].
    { destruct lo; [|discriminate]. split; [done|].
      destruct greedy; unfold orelse in H; [done|]. by destruct (k _). }
    exists [], []. split_and!; auto using within_0.
  - simpl in H.
    set (more := if in_class cl c && negb (bool_decide (hi = Some 0%nat))
                 then rep greedy cl (pred lo) (pred <$> hi) gs (S pos) (Some c) rest k
                 else None) in H.
    assert (Hmore : more = Some res →
      ∃ w rest1, c :: rest = w ++ rest1 ∧ forallb (in_class cl) w = true
        ∧ (lo ≤ length w)%nat ∧ within hi (length w)
        ∧ k (moved (Cursor pos prev (c :: rest) gs) w rest1) = Some res).
    { unfold more. destruct (in_class cl c) eqn:Hc; [|discriminate].
      case_bool_decide as Hhi; [discriminate|]. simpl. intros Hr.
      apply IH in Hr as (w & rest1 & -> & Hw & Hlo & Hhi' & Hk).
      exists (c :: w), rest1. simpl. rewrite Hc, Hw.
      split_and!; auto; [lia | by apply within_pred |].
      rewrite <- Hk. unfold moved. simpl. do 2 f_equal. lia. }
    assert (Hstop : k (Cursor pos prev (c :: rest) gs) = Some res → lo = 0%nat →
      ∃ w rest1, c :: rest = w ++ rest1 ∧ forallb (in_class cl) w = true
        ∧ (lo ≤ length w)%nat ∧ within hi (length w)
        ∧ k (moved (Cursor pos prev (c :: rest) gs) w rest1) = Some res).
    { intros Hk ->. exists [], (c :: rest). split_and!; auto using within_0. }
    destruct lo as [|lo]; [|auto].
    destruct greedy; unfold orelse in H.
    + destruct more eqn:Hm; [auto|]. auto.
    + destruct (k _) eqn:Hk; [auto|]. auto.
Qed.

Lemma orelse_is_Some {A} (a b : option A) :
  is_Some (orelse a b) ↔ is_Some a ∨ is_Some b.
Proof.
  destruct a; simpl; split; eauto. intros [H|H]; [by destruct H | done].
Qed.

Lemma rep_complete w : ∀ rest1 greedy cl lo hi gs pos prev k,
  forallb (in_class cl) w = true → (lo ≤ length w)%nat → within hi (length w) →
  is_Some (k (moved (Cursor pos prev (w ++ rest1) gs) w rest1)) →
  is_Some (rep greedy cl lo hi gs pos prev (w ++ rest1) k).
Proof.
  induction w as [|c w IH]; intros rest1 greedy cl lo hi gs pos prev k Hw Hlo Hhi Hk.
  - simpl in *. assert (lo = 0%nat) as -> by lia.
    unfold moved in Hk. simpl in Hk.
    destruct rest1 as [|c rest]; simpl;
      destruct greedy; simpl; rewrite ?orelse_is_Some; auto.
  - simpl in Hw. apply andb_true_iff in Hw as [Hc Hw].
    simpl in Hhi. apply within_S in Hhi as [Hhi Hne].
    assert (Hmore : is_Some (rep greedy cl (pred lo) (pred <$> hi) gs (S pos)
                               (Some c) (w ++ rest1) k)).
    { apply IH; auto; [simpl in Hlo; lia|].
      destruct Hk as [x Hk]. exists x. rewrite <- Hk. unfold moved. simpl.
      do 2 f_equal. lia. }
    simpl. rewrite Hc. rewrite bool_decide_eq_false_2 by done. simpl.
    destruct lo; [|done]. destruct greedy; rewrite orelse_is_Some; auto.
Qed.

(** Soundness and completeness of the backtracking matcher. *)
Lemma rmatch_denote ic r : ∀ st k,
  (∀ res, rmatch ic r st k = Some res →
          ∃ st1, denote ic r st st1 ∧ k st1 = Some res)
  ∧ (∀ st1, denote ic r st st1 → is_Some (k st1) → is_Some (rmatch ic r st k)).
Proof.
  induction r as [|a|cl|r1 IH1 r2 IH2|r1 IH1 r2 IH2|g lo hi cl|n r IH| | | |r IH];
    intros st k; simpl.
  - split; [eauto|]. by intros st1 ->.
  - split.
    + intros res H. destruct (c_rest st) as [|c rest] eqn:Hr; [discriminate|].
      destruct (lit_eq ic a c) eqn:Hc; [|discriminate]. eauto 10.
    + intros st1 (c & rest & Hr & Hc & ->) Hk. by rewrite Hr, Hc.
  - split.
    + intros res H. destruct (c_rest st) as [|c rest] eqn:Hr; [discriminate|].
      destruct (in_class cl c) eqn:Hc; [|discriminate]. eauto 10.
    + intros st1 (c & rest & Hr & Hc & ->) Hk. by rewrite Hr, Hc.
  - split.
    + intros res H. apply IH1 in H as (st' & H1 & H).
      apply IH2 in H as (st1 & H2 & H). eauto.
    + intros st1 (st' & H1 & H2) Hk.
      eapply (proj2 (IH1 _ _)); [exact H1|]. eapply (proj2 (IH2 _ _)); eauto.
  - split.
    + intros res H. unfold orelse in H.
      destruct (rmatch ic r1 st k) eqn:H1.
      * inversion H; subst. apply IH1 in H1 as (st1 & ? & ?). eauto.
      * apply IH2 in H as (st1 & ? & ?). eauto.
    + intros st1 [H|H] Hk; unfold orelse.
      * destruct (proj2 (IH1 st k) _ H Hk) as [x ->]. eauto.
      * destruct (rmatch ic r1 st k); [eauto|]. eapply (proj2 (IH2 _ _)); eauto.
  - split.
    + intros res H. apply rep_sound in H as (w & rest1 & Hr & ? & ? & ? & Hk).
      exists (moved st w rest1). split; [eauto 10|].
      rewrite <- Hk. by destruct st.
    + intros st1 (w & rest & Hr & Hw & Hlo & Hhi & ->) Hk. rewrite Hr.
      apply rep_complete; auto.
  - split.
    + intros res H. apply IH in H as (st' & ? & ?). eauto.
    + intros st1 (st' & H & ->) Hk. eapply (proj2 (IH _ _)); eauto.
  - split.
    + intros res H. destruct (c_pos st =? 0)%nat eqn:E; [|discriminate].
      apply Nat.eqb_eq in E. eauto.
    + intros st1 [E ->] Hk. by rewrite E.
  - split.
    + intros res H. destruct (at_end (c_rest st)) eqn:E; [eauto|discriminate].
    + intros st1 [E ->] Hk. by rewrite E.
  - split.
    + intros res H. destruct (at_word_boundary st) eqn:E; [eauto|discriminate].
    + intros st1 [E ->] Hk. by rewrite E.
  - split.
    + intros res H. destruct (rmatch ic r st Some) eqn:E; [discriminate|].
      exists st. split; [|done]. split; [|done]. intros st' Hd.
      destruct (proj2 (IH st Some) st' Hd) as [x Hx]; [eauto|]. congruence.
    + intros st1 [Hn ->] Hk. destruct (rmatch ic r st Some) eqn:E; [|done].
      apply IH in E as (st' & Hd & _). by destruct (Hn st').
Qed.

Lemma match_at_sound ic r pos prev rest m :
  match_at ic r pos prev rest = Some m →
  ∃ st1, denote ic r (Cursor pos prev rest []) st1
         ∧ m = Match pos (c_pos st1) (c_groups st1).
Proof.
  unfold match_at. destruct (rmatch _ _ _ _) as [st1|] eqn:E; [|discriminate].
  intros [= <-]. apply rmatch_denote in E as (st' & Hd & [= ->]). eauto.
Qed.

Lemma match_at_complete ic r pos prev rest st1 :
  denote ic r (Cursor pos prev rest []) st1 →
  is_Some (match_at ic r pos prev rest).
Proof.
  intros Hd. unfold match_at.
  destruct (proj2 (rmatch_denote ic r (Cursor pos prev rest []) Some) st1 Hd)
    as [x ->]; eauto.
Qed.

Lemma match_at_None ic r pos prev rest :
  match_at ic r pos prev rest = None →
  ∀ st1, ¬ denote ic r (Cursor pos prev rest []) st1.
Proof.
  intros E st1 Hd. apply match_at_complete in Hd as [m Hm]. congruence.
Qed.

(** A pattern that starts with [^] matches at the start of the subject or
    nowhere, and [re.search] is then a single attempt. *)
Lemma search_from_anchored ic r :
  (∀ pos prev rest, pos ≠ 0%nat → match_at ic r pos prev rest = None) →
  ∀ rest pos prev, pos ≠ 0%nat → search_from ic r pos prev rest = None.
Proof.
  intros Hr. induction rest as [|c rest IH]; intros pos prev Hpos; simpl.
  - by rewrite Hr.
  - rewrite Hr by done. by apply IH.
Qed.

Lemma search_anchored ic r s :
  (∀ pos prev rest, pos ≠ 0%nat → match_at ic r pos prev rest = None) →
  search ic r s = match_at ic r 0 None s.
Proof.
  intros Hr. unfold search. destruct s as [|c s]; simpl.
  - by destruct (match_at _ _ _ _ _).
  - destruct (match_at _ _ _ _ _); [done|]. by apply search_from_anchored.
Qed.

Lemma anchored_cat ic rs pos prev rest :
  pos ≠ 0%nat → match_at ic (cat (Bol :: rs)) pos prev rest = None.
Proof.
  intros Hpos. destruct (match_at _ _ _ _ _) as [m|] eqn:E; [|done].
  apply match_at_sound in E as (st1 & Hd & _).
  simpl in Hd. destruct Hd as (st' & [Hp _] & _). simpl in Hp. lia.
Qed.

(** Every match [re.finditer] yields is a match of the pattern at some
    position of the subject. *)
Lemma finditer_from_sound ic r m rest : ∀ skip pos prev,
  m ∈ finditer_from ic r skip pos prev rest →
  ∃ pre rest', rest = pre ++ rest'
    ∧ match_at ic r (length pre + pos) (prev_after prev pre) rest' = Some m.
Proof.
  induction rest as [|c rest IH]; intros skip pos prev Hm.
  - destruct skip; simpl in Hm; [|by apply elem_of_nil in Hm].
    destruct (match_at ic r pos prev []) eqn:E; [|by apply elem_of_nil in Hm].
    apply list_elem_of_singleton in Hm as ->. by exists [], [].
  - assert (Hrec : ∀ sk, m ∈ finditer_from ic r sk (S pos) (Some c) rest →
        ∃ pre rest', c :: rest = pre ++ rest'
          ∧ match_at ic r (length pre + pos) (prev_after prev pre) rest' = Some m).
    { intros sk H. apply IH in H as (pre & rest' & -> & H).
      exists (c :: pre), rest'. split; [done|]. simpl.
      by replace (S (length pre + pos)) with (length pre + S pos)%nat by lia. }
    destruct skip; simpl in Hm; [|eauto].
    destruct (match_at ic r pos prev (c :: rest)) eqn:E; [|eauto].
    apply elem_of_cons in Hm as [->|Hm]; [|eauto]. by exists [], (c :: rest).
Qed.

(** Conversely, a position where the pattern matches is reported, unless
    an earlier match covers it.  It is enough that the characters a match
    covers after its first satisfy [inner], and that no match starts with
    such a character. *)
Lemma finditer_from_complete ic r (inner : N → bool) m :
  (∀ pos prev rest m', match_at ic r pos prev rest = Some m' →
     forallb inner (take (pred (m_end m' - pos)) (tail rest)) = true) →
  (∀ pos prev c rest, inner c = true → match_at ic r pos prev (c :: rest) = None) →
  ∀ pre rest' pos prev skip,
    match_at ic r (length pre + pos) (prev_after prev pre) rest' = Some m →
    rest' ≠ [] →
    forallb inner (take skip (pre ++ rest')) = true →
    m ∈ finditer_from ic r skip pos prev (pre ++ rest').
Proof.
  intros Hcover Hstart.
  induction pre as [|c pre IH]; intros rest' pos prev skip Hm Hne Hskip.
  - simpl in *. destruct rest' as [|c rest]; [done|].
    destruct skip as [|skip].
    + simpl. rewrite Hm. apply elem_of_cons; auto.
    + simpl in Hskip. apply andb_true_iff in Hskip as [Hc _].
      rewrite (Hstart _ _ _ _ Hc) in Hm. discriminate.
  - simpl in Hm.
    replace (S (length pre + pos)) with (length pre + S pos)%nat in Hm by lia.
    destruct skip as [|skip]; simpl.
    + destruct (match_at ic r pos prev (c :: pre ++ rest')) as [m0|] eqn:E.
      * apply elem_of_cons. right. apply IH; auto.
        apply (Hcover _ _ _ _ E).
      * apply IH; auto.
    + simpl in Hskip. apply andb_true_iff in Hskip as [_ Hskip]. apply IH; auto.
Qed.

(** Reading [denote] one item of a pattern at a time, on explicit
    cursors. *)
Lemma denote_cat_cons ic r rs st st1 :
  denote ic (cat (r :: rs)) st st1 ↔
  ∃ st', denote ic r st st' ∧ denote ic (cat rs) st' st1.
Proof. done. Qed.

Lemma denote_cat_nil ic st st1 : denote ic (cat []) st st1 ↔ st1 = st.
Proof. done. Qed.

Lemma denote_Bol ic p pv rest gs st1 :
  denote ic Bol (Cursor p pv rest gs) st1 ↔
  p = 0%nat ∧ st1 = Cursor p pv rest gs.
Proof. done. Qed.

Lemma denote_Eol ic p pv rest gs st1 :
  denote ic Eol (Cursor p pv rest gs) st1 ↔
  at_end rest = true ∧ st1 = Cursor p pv rest gs.
Proof. done. Qed.

Lemma denote_Chr a p pv rest gs st1 :
  denote false (Chr a) (Cursor p pv rest gs) st1 ↔
  ∃ rest', rest = a :: rest' ∧ st1 = Cursor (S p) (Some a) rest' gs.
Proof.
  simpl. split.
  - intros (c & rest' & -> & Hc & ->). apply N.eqb_eq in Hc as ->. eauto.
  - intros (rest' & -> & ->). exists a, rest'. by rewrite N.eqb_refl.
Qed.

Lemma denote_Rep ic g lo hi cl p pv rest gs st1 :
  denote ic (Rep g lo hi cl) (Cursor p pv rest gs) st1 ↔
  ∃ w rest', rest = w ++ rest' ∧ forallb (in_class cl) w = true
    ∧ (lo ≤ length w)%nat ∧ within hi (length w)
    ∧ st1 = Cursor (length w + p) (prev_after pv w) rest' gs.
Proof. done. Qed.

Lemma denote_Group_Rep ic n g lo hi cl p pv rest gs st1 :
  denote ic (Group n (Rep g lo hi cl)) (Cursor p pv rest gs) st1 ↔
  ∃ w rest', rest = w ++ rest' ∧ forallb (in_class cl) w = true
    ∧ (lo ≤ length w)%nat ∧ within hi (length w)
    ∧ st1 = Cursor (length w + p) (prev_after pv w) rest' ((n, w) :: gs).
Proof.
  simpl. split.
  - intros (st' & (w & rest' & -> & Hw & Hlo & Hhi & ->) & ->).
    exists w, rest'. split_and!; auto. unfold close_group, moved. simpl.
    do 3 f_equal. replace (length w + p - p)%nat with (length w) by lia.
    by rewrite take_app_length.
  - intros (w & rest' & -> & Hw & Hlo & Hhi & ->).
    exists (moved (Cursor p pv (w ++ rest') gs) w rest'). split; [eauto 10|].
    unfold close_group, moved. simpl.
    do 3 f_equal. replace (length w + p - p)%nat with (length w) by lia.
    by rewrite take_app_length.
Qed.

Lemma denote_NotAhead_In ic cl p pv rest gs st1 :
  denote ic (NotAhead (In cl)) (Cursor p pv rest gs) st1 ↔
  (∀ c, head rest = Some c → in_class cl c = false)
  ∧ st1 = Cursor p pv rest gs.
Proof.
  simpl. split.
  - intros [Hn ->]. split; [|done]. intros c Hc.
    destruct rest as [|c' rest]; simplify_eq/=.
    destruct (in_class cl c) eqn:E; [|done]. edestruct Hn; eauto.
  - intros [Hn ->]. split; [|done]. intros st' (c & rest' & -> & Hc & _).
    rewrite Hn in Hc; done.
Qed.

End ReFacts.

Import ReFacts.

(** ** Lines *)

Lemma splitlines_no_break_upto n : ∀ s line,
  (length s ≤ n)%nat → line ∈ splitlines s →
  ∀ c, c ∈ line → Unicode.is_linebreak c = false.
Proof.
  induction n as [|n IH]; intros s line Hlen Hin c Hc.
  - destruct s; [|simpl in Hlen; lia]. by apply elem_of_nil in Hin.
  - destruct s as [|c0 s]; [by apply elem_of_nil in Hin|].
    simpl in Hlen, Hin.
    destruct (Unicode.is_linebreak c0) eqn:Hb.
    + apply elem_of_cons in Hin as [->|Hin]; [by apply elem_of_nil in Hc|].
      destruct s as [|c1 s']; [by apply elem_of_nil in Hin|].
      simpl in Hlen.
      destruct ((c0 =? 13) && (c1 =? 10)).
      * eapply (IH s'); eauto. lia.
      * eapply (IH (c1 :: s')); eauto. simpl. lia.
    + destruct (splitlines s) as [|l ls] eqn:Hs.
      * apply list_elem_of_singleton in Hin as ->.
        apply list_elem_of_singleton in Hc as ->. done.
      * apply elem_of_cons in Hin as [->|Hin].
        -- apply elem_of_cons in Hc as [->|Hc]; [done|].
           eapply (IH s); [lia| |exact Hc]. rewrite Hs. apply elem_of_cons; auto.
        -- eapply (IH s); [lia| |exact Hc]. rewrite Hs. apply elem_of_cons; auto.
Qed.

Lemma splitlines_no_newline s line :
  line ∈ splitlines s → 0x0A ∉ line.
Proof.
  intros Hin Hc.
  by pose proof (splitlines_no_break_upto _ s line (le_n _) Hin _ Hc).
Qed.

(** ** What the patterns match *)

Ltac denote_step H :=
  let st := fresh "st" in
  let H1 := fresh "Hd" in
  apply denote_cat_cons in H as (st & H1 & H);
  first
    [ apply denote_Bol in H1 as [? ->]
    | apply denote_Eol in H1 as [? ->]
    | apply denote_Chr in H1 as (? & ? & ->)
    | apply denote_Group_Rep in H1 as (? & ? & ? & ? & ? & ? & ->)
    | apply denote_Rep in H1 as (? & ? & ? & ? & ? & ? & ->)
    | apply denote_NotAhead_In in H1 as [? ->] ].

Lemma at_end_no_newline rest : 0x0A ∉ rest → at_end rest = true → rest = [].
Proof.
  destruct rest as [|c [|c' rest]]; [done| |done].
  simpl. intros Hn H. apply N.eqb_eq in H as ->.
  destruct Hn. apply elem_of_cons; auto.
Qed.

(** A run of characters of one class followed by a character outside it can
    be read off a string in one way only. *)
Lemma run_unique (P : N → bool) (l1 l2 r1 r2 : list N) :
  forallb P l1 = true → forallb P l2 = true →
  (∀ c, head r1 = Some c → P c = false) →
  (∀ c, head r2 = Some c → P c = false) →
  l1 ++ r1 = l2 ++ r2 → l1 = l2 ∧ r1 = r2.
Proof.
  revert l2. induction l1 as [|a l1 IH]; intros [|b l2] H1 H2 Hr1 Hr2 E;
    simpl in *.
  - done.
  - subst r1. apply andb_true_iff in H2 as [Hb _].
    rewrite (Hr1 b eq_refl) in Hb. done.
  - subst r2. apply andb_true_iff in H1 as [Ha _].
    rewrite (Hr2 a eq_refl) in Ha. done.
  - apply andb_true_iff in H1 as [_ H1]. apply andb_true_iff in H2 as [_ H2].
    injection E as -> E. destruct (IH l2 H1 H2 Hr1 Hr2 E) as [-> ->]. done.
Qed.

Lemma prefix_unique (P : N → bool) (l1 l2 : list N) x r1 r2 :
  forallb P l1 = true → forallb P l2 = true → P x = false →
  l1 ++ x :: r1 = l2 ++ x :: r2 → l1 = l2 ∧ r1 = r2.
Proof.
  intros H1 H2 Hx E.
  destruct (run_unique P l1 l2 (x :: r1) (x :: r2)) as [-> [= ->]]; auto;
    by intros c [= <-].
Qed.

Lemma forallb_rev {A} (f : A → bool) l : forallb f (rev l) = forallb f l.
Proof.
  induction l as [|a l IH]; [done|]. simpl.
  rewrite forallb_app, IH. simpl. rewrite andb_true_r. apply andb_comm.
Qed.




Lemma nonempty_length {A} (l : list A) : l ≠ [] ↔ (1 ≤ length l)%nat.
Proof. destruct l; simpl; split; (done || lia). Qed.

(** *** The standalone comment line *)


Lemma standalone_sound line m :
  0x0A ∉ line → match_at false STANDALONE 0 None line = Some m →
  ∃ content, group m 1 = Some content ∧ paren_line line content.
Proof.
  intros Hnl H. apply match_at_sound in H as (st1 & Hd & ->).
  unfold STANDALONE, star, plus_lazy in Hd.
  do 7 denote_step Hd. apply denote_cat_nil in Hd as ->. subst.
  match goal with H : at_end ?x = true |- _ =>
    apply at_end_no_newline in H; [subst x|] end.
  - eexists. split; [done|]. rewrite app_nil_r.
    eexists _, _. split_and!; eauto. by apply nonempty_length.
  - set_solver.
Qed.


(** *** The program-number line *)



Lemma header_sound line m :
  0x0A ∉ line → match_at false HEADER 0 None line = Some m →
  ∃ content, group m 1 = Some content ∧ o_number_line line content.
Proof.
  intros Hnl H. apply match_at_sound in H as (st1 & Hd & ->).
  unfold HEADER, star, plus, plus_lazy in Hd.
  do 10 denote_step Hd. apply denote_cat_nil in Hd as ->. subst.
  match goal with H : at_end ?x = true |- _ =>
    apply at_end_no_newline in H; [subst x|] end.
  - eexists. split; [done|]. rewrite app_nil_r.
    eexists _, _, _, _. split_and!; eauto; by apply nonempty_length.
  - set_solver.
Qed.


(** [re.search] with the two anchored patterns. *)
Lemma search_HEADER line : search false HEADER line = match_at false HEADER 0 None line.
Proof. apply search_anchored. intros. by apply anchored_cat. Qed.

Lemma search_STANDALONE line :
  search false STANDALONE line = match_at false STANDALONE 0 None line.
Proof. apply search_anchored. intros. by apply anchored_cat. Qed.

(** *** Tool calls *)

Lemma lathe_sound pos prev rest m :
  match_at false LATHE pos prev rest = Some m →
  ∃ d1 d2 d3 d4 rest',
    rest = chr "T" :: d1 :: d2 :: d3 :: d4 :: rest'
    ∧ digits [d1; d2; d3; d4] ∧ m = lathe_match pos d1 d2 d3 d4.
Proof.
  intros H. apply match_at_sound in H as (st1 & Hd & ->).
  unfold LATHE in Hd. do 3 denote_step Hd. apply denote_cat_nil in Hd as ->.
  subst. simpl in *.
  repeat match goal with
         | H : (2 ≤ length ?w)%nat |- _ =>
             destruct w as [|? [|? [|? ?]]]; simpl in *; try lia; clear H
         end.
  eexists _, _, _, _, _. split; [done|]. unfold digits, lathe_match. simpl in *.
  split; [|done]. repeat match goal with
    | H : _ && _ = true |- _ => apply andb_true_iff in H as [? ?] end.
  by repeat (apply andb_true_iff; split).
Qed.

Lemma lathe_complete pos prev d1 d2 d3 d4 rest' :
  digits [d1; d2; d3; d4] →
  match_at false LATHE pos prev (chr "T" :: d1 :: d2 :: d3 :: d4 :: rest')
  = Some (lathe_match pos d1 d2 d3 d4).
Proof.
  intros Hds. unfold digits in Hds. simpl in Hds.
  repeat match goal with
    | H : _ && _ = true |- _ => apply andb_true_iff in H as [? ?] end.
  match goal with |- ?x = _ => destruct x as [m|] eqn:E end.
  - apply lathe_sound in E as (? & ? & ? & ? & ? & [= <- <- <- <- <-] & _ & ->).
    done.
  - exfalso. eapply match_at_None; [exact E|]. unfold LATHE.
    apply denote_cat_cons. eexists. split; [apply denote_Chr; eauto|].
    apply denote_cat_cons. eexists. split.
    { apply denote_Group_Rep. exists [d1; d2], (d3 :: d4 :: rest').
      split_and!; eauto; simpl; try lia. by repeat (apply andb_true_iff; split). }
    apply denote_cat_cons. eexists. split.
    { apply denote_Group_Rep. exists [d3; d4], rest'.
      split_and!; eauto; simpl; try lia. by repeat (apply andb_true_iff; split). }
    by apply denote_cat_nil.
Qed.

Lemma mill_sound pos prev rest m :
  match_at false MILL pos prev rest = Some m →
  ∃ ds rest',
    rest = chr "T" :: ds ++ rest' ∧ digits ds
    ∧ (1 ≤ length ds ≤ 2)%nat ∧ no_digit_next rest' ∧ m = mill_match pos ds.
Proof.
  intros H. apply match_at_sound in H as (st1 & Hd & ->).
  unfold MILL in Hd. do 3 denote_step Hd. apply denote_cat_nil in Hd as ->.
  subst. simpl in *. eexists _, _. split_and!; eauto.
Qed.

Lemma mill_complete pos prev ds rest' :
  digits ds → (1 ≤ length ds ≤ 2)%nat → no_digit_next rest' →
  match_at false MILL pos prev (chr "T" :: ds ++ rest') = Some (mill_match pos ds).
Proof.
  intros Hds Hlen Hnext.
  match goal with |- ?x = _ => destruct x as [m|] eqn:E end.
  - apply mill_sound in E as (ds' & rest'' & [= E] & Hds' & _ & Hnext' & ->).
    apply run_unique with (P := Unicode.is_digit) in E as [-> _]; auto.
  - exfalso. eapply match_at_None; [exact E|]. unfold MILL.
    apply denote_cat_cons. eexists. split; [apply denote_Chr; eauto|].
    apply denote_cat_cons. eexists. split.
    { apply denote_Group_Rep. exists ds, rest'. split_and!; eauto; simpl; lia. }
    apply denote_cat_cons. eexists. split; [by apply denote_NotAhead_In|].
    by apply denote_cat_nil.
Qed.

(** [re.finditer] reports every tool call of either kind: a match covers
    digits only after its [T], so none hides the start of another. *)
Lemma finditer_LATHE pre d1 d2 d3 d4 rest' :
  digits [d1; d2; d3; d4] →
  lathe_match (length pre) d1 d2 d3 d4
  ∈ finditer false LATHE (pre ++ chr "T" :: d1 :: d2 :: d3 :: d4 :: rest').
Proof.
  intros Hds. unfold finditer.
  apply finditer_from_complete with (inner := Unicode.is_digit); try done.
  - intros pos prev rest m' E.
    apply lathe_sound in E as (? & ? & ? & ? & ? & -> & Hd & ->).
    unfold lathe_match. cbn [m_end].
    replace (5 + pos - pos)%nat with 5%nat by lia.
    unfold digits in Hd. simpl in *. done.
  - intros pos prev c rest Hc.
    destruct (match_at _ _ _ _ _) eqn:E; [|done].
    apply lathe_sound in E as (? & ? & ? & ? & ? & [= -> _] & _). done.
  - rewrite Nat.add_0_r. by apply lathe_complete.
Qed.

Lemma finditer_MILL pre ds rest' :
  digits ds → (1 ≤ length ds ≤ 2)%nat → no_digit_next rest' →
  mill_match (length pre) ds ∈ finditer false MILL (pre ++ chr "T" :: ds ++ rest').
Proof.
  intros Hds Hlen Hnext. unfold finditer.
  apply finditer_from_complete with (inner := Unicode.is_digit); try done.
  - intros pos prev rest m' E.
    apply mill_sound in E as (ds' & rest'' & -> & Hd & _ & _ & ->).
    unfold mill_match. cbn [m_end].
    replace (length ds' + S pos - pos)%nat with (S (length ds')) by lia.
    simpl. by rewrite take_app_length.
  - intros pos prev c rest Hc.
    destruct (match_at _ _ _ _ _) eqn:E; [|done].
    apply mill_sound in E as (? & ? & [= -> _] & _). done.
  - rewrite Nat.add_0_r. by apply mill_complete.
Qed.

(** ** Tool numbers *)

Lemma digit_value_lt c : Unicode.is_digit c = true → Unicode.digit_value c < 10.
Proof.
  unfold Unicode.is_digit, Unicode.digit_value, Unicode.digit_run.
  intros H. apply bool_decide_eq_true in H as [z Hz]. rewrite Hz.
  apply find_some in Hz as [_ Hz]. unfold in_range in Hz.
  apply andb_true_iff in Hz as [H1 H2].
  apply N.leb_le in H1, H2. lia.
Qed.

Lemma int_one d :
  Unicode.is_digit d = true → int [d] = Ok (Z.of_N (Unicode.digit_value d)).
Proof. intros H. unfold int. simpl. by rewrite H. Qed.

Lemma int_two d1 d2 :
  Unicode.is_digit d1 = true → Unicode.is_digit d2 = true →
  int [d1; d2] = Ok (Z.of_N (10 * Unicode.digit_value d1 + Unicode.digit_value d2)).
Proof.
  intros H1 H2. unfold int. cbn [int_digits]. by rewrite H1, H2.
Qed.

Lemma int_short ds :
  digits ds → (1 ≤ length ds ≤ 2)%nat →
  ∃ t, int ds = Ok t ∧ (0 ≤ t ≤ 99)%Z.
Proof.
  unfold digits. intros Hds Hlen.
  destruct ds as [|d1 [|d2 [|d3 ds]]]; simpl in Hlen; try lia; simpl in Hds;
    repeat match goal with
      | H : _ && _ = true |- _ => apply andb_true_iff in H as [? ?] end.
  - rewrite int_one by done. eexists. split; [done|].
    pose proof (digit_value_lt d1 ltac:(done)). lia.
  - rewrite int_two by done. eexists. split; [done|].
    pose proof (digit_value_lt d1 ltac:(done)).
    pose proof (digit_value_lt d2 ltac:(done)). lia.
Qed.

(** ** The comment nearest to a line *)

Lemma first_good_qualifying line :
  first_good (rev (_comments_on_line line)) = qualifying line.
Proof.
  unfold qualifying, candidates.
  induction (rev (_comments_on_line line)) as [|c cs IH]; [done|].
  simpl. by rewrite IH.
Qed.

Lemma getitem_nat {A} (l : list A) (i : nat) x :
  l !! i = Some x → getitem l (Z.of_nat i) = Ok x.
Proof.
  intros H. unfold getitem.
  assert ((Z.of_nat i <? 0)%Z = false) as E by (apply Z.ltb_ge; lia).
  cbv zeta. rewrite E. cbv iota. by rewrite E, Nat2Z.id, H.
Qed.

Lemma look_back_spec lines (i : nat) : ∀ ks,
  (∀ k, k ∈ ks → (k ≤ i)%nat) → (i < length lines)%nat →
  look_back lines (map (fun k => (Z.of_nat i - Z.of_nat k)%Z) ks)
  = Ok (head (omap qualifying (omap (fun k => lines !! (i - k)%nat) ks))).
Proof.
  induction ks as [|k ks IH]; intros Hks Hi; [done|].
  assert (k ≤ i)%nat by (apply Hks, elem_of_cons; auto).
  destruct (lookup_lt_is_Some_2 lines (i - k)%nat) as [line Hl]; [lia|].
  cbn [map look_back omap list_omap]. 
  replace (Z.of_nat i - Z.of_nat k)%Z with (Z.of_nat (i - k)) by lia.
  rewrite (getitem_nat _ _ _ Hl). simpl. rewrite Hl, first_good_qualifying.
  destruct (qualifying line) eqn:Eq; simpl; rewrite Eq; [reflexivity|].
  apply IH; auto. intros k' Hk'. apply Hks, elem_of_cons; auto.
Qed.

Lemma range_down_back (i : nat) (sb : Z) :
  range_down (Z.of_nat i - 1) (Z.max (-1) (Z.of_nat i - sb - 1))
  = map (fun k => (Z.of_nat i - Z.of_nat k)%Z) (seq 1 (min i (Z.to_nat sb))).
Proof.
  unfold range_down.
  replace (Z.to_nat (Z.of_nat i - 1 - Z.max (-1) (Z.of_nat i - sb - 1)))
    with (min i (Z.to_nat sb)) by lia.
  rewrite <- (seq_shift _ 0), map_map. apply map_ext. intros k. lia.
Qed.

(** The function of the source computes what the specification describes,
    on every index of the line sequence. *)
Lemma nearest_refines lines (i : nat) (sb : Z) :
  (i < length lines)%nat →
  _nearest_good_comment lines (Z.of_nat i) sb
  = Ok (nearest_comment lines i (Z.to_nat sb)).
Proof.
  intros Hi. unfold _nearest_good_comment, nearest_comment, examined.
  destruct (lookup_lt_is_Some_2 lines i Hi) as [line Hl].
  rewrite (getitem_nat _ _ _ Hl). cbn [mbind res_bind].
  rewrite first_good_qualifying.
  cbn [seq omap list_omap]. rewrite Nat.sub_0_r, Hl. cbn [omap list_omap].
  destruct (qualifying line) as [cand|] eqn:Eq; simpl; rewrite ?Eq;
    [reflexivity|].
  rewrite range_down_back, look_back_spec; [reflexivity| |done].
  intros k Hk. apply elem_of_seq in Hk. lia.
Qed.

(** ** The tool map *)

Lemma tool_number_lathe pos d1 d2 d3 d4 :
  tool_number (lathe_match pos d1 d2 d3 d4) = int [d1; d2].
Proof. done. Qed.

Lemma tool_number_mill pos ds : tool_number (mill_match pos ds) = int ds.
Proof. done. Qed.

Lemma tool_number_LATHE line m :
  m ∈ finditer false LATHE line →
  ∃ t, tool_number m = Ok t ∧ (0 ≤ t ≤ 99)%Z.
Proof.
  intros Hm. apply finditer_from_sound in Hm as (pre & rest & _ & Hm).
  apply lathe_sound in Hm as (d1 & d2 & d3 & d4 & rest' & _ & Hd & ->).
  rewrite tool_number_lathe. apply int_short; [|simpl; lia].
  unfold digits in *. simpl in *.
  repeat match goal with
    | H : _ && _ = true |- _ => apply andb_true_iff in H as [? ?] end.
  by repeat (apply andb_true_iff; split).
Qed.

Lemma tool_number_MILL line m :
  m ∈ finditer false MILL line →
  ∃ t, tool_number m = Ok t ∧ (0 ≤ t ≤ 99)%Z.
Proof.
  intros Hm. apply finditer_from_sound in Hm as (pre & rest & _ & Hm).
  apply mill_sound in Hm as (ds & rest' & _ & Hd & Hlen & _ & ->).
  rewrite tool_number_mill. by apply int_short.
Qed.

Lemma elem_of_line_tools t line :
  t ∈ line_tools line ↔
  t ∈ numbers (finditer false LATHE line) ∨ t ∈ numbers (finditer false MILL line).
Proof. unfold line_tools, numbers. rewrite omap_app. apply elem_of_app. Qed.

Lemma line_tools_range line t : t ∈ line_tools line → (0 ≤ t ≤ 99)%Z.
Proof.
  unfold line_tools, numbers. intros Ht.
  apply list_elem_of_omap in Ht as (m & Hm & Ht).
  apply elem_of_app in Hm as [Hm|Hm];
    [apply tool_number_LATHE in Hm as (t' & E & Hr)
    |apply tool_number_MILL in Hm as (t' & E & Hr)];
    rewrite E in Ht; by simplify_eq.
Qed.

(** The map after the calls [ts] of one line have been recorded with the
    description [d]. *)
Lemma setdefault_lookup tools k v t :
  setdefault tools k v !! t
  = match tools !! t with
    | Some x => Some x
    | None => if decide (t = k) then Some v else None
    end.
Proof.
  unfold setdefault. destruct (tools !! k) eqn:Ek.
  - destruct (tools !! t) eqn:Et; [done|]. case_decide; congruence.
  - rewrite lookup_insert. case_decide; subst.
    + rewrite Ek. by rewrite decide_True.
    + rewrite decide_False by done. by destruct (tools !! t).
Qed.

Lemma record_matches_spec lines idx d : ∀ ms tools,
  (∀ m, m ∈ ms → ∃ t, tool_number m = Ok t) →
  _nearest_good_comment lines (Z.of_nat idx) search_back_default = Ok d →
  ∃ tools', record_matches lines idx ms tools = Ok tools'
    ∧ ∀ t, tools' !! t
           = match tools !! t with
             | Some x => Some x
             | None => if decide (t ∈ numbers ms) then Some d else None
             end.
Proof.
  intros ms. induction ms as [|m ms IH]; intros tools Hms Hd.
  - exists tools. split; [done|]. intros t. simpl.
    by destruct (tools !! t).
  - destruct (Hms m) as [k Hk]; [apply elem_of_cons; auto|].
    destruct (IH (setdefault tools k d)) as (tools' & E & Hl); auto.
    { intros m' Hm'. apply Hms, elem_of_cons; auto. }
    exists tools'. split.
    + cbn [record_matches]. unfold tool_number in Hk.
      destruct (int_arg (group m 1)) as [g|]; [|done]. simpl in Hk |- *.
      rewrite Hk. simpl. rewrite Hd. simpl. done.
    + intros t. rewrite Hl, setdefault_lookup. unfold numbers. simpl.
      fold (numbers ms). rewrite Hk.
      destruct (tools !! t); [done|].
      destruct (decide (t = k)) as [->|Hne].
      * rewrite decide_True; [done|]. apply elem_of_cons; auto.
      * destruct (decide (t ∈ numbers ms)).
        -- rewrite decide_True; [done|]. apply elem_of_cons; auto.
        -- rewrite decide_False; [done|]. by intros [?|?]%elem_of_cons.
Qed.

Lemma scan_lines_spec lines : ∀ todo past tools,
  lines = past ++ todo →
  ∃ tools', scan_lines lines (length past) todo tools = Ok tools'
    ∧ ∀ t, tools' !! t
           = match tools !! t with
             | Some x => Some x
             | None =>
                 (fun p => nearest_comment lines (length past + fst p) 25)
                 <$> list_find (fun l => t ∈ line_tools l) todo
             end.
Proof.
  induction todo as [|line todo IH]; intros past tools Hl.
  - exists tools. split; [done|]. intros t. by destruct (tools !! t).
  - assert (Hd : _nearest_good_comment lines (Z.of_nat (length past))
                   search_back_default
                 = Ok (nearest_comment lines (length past) 25)).
    { apply (nearest_refines lines (length past) 25). subst lines.
      rewrite length_app. simpl. lia. }
    destruct (record_matches_spec lines (length past) _
                (finditer false LATHE line) tools
                ltac:(intros m [t [? _]]%tool_number_LATHE; eauto) Hd)
      as (tools1 & E1 & H1).
    destruct (record_matches_spec lines (length past) _
                (finditer false MILL line) tools1
                ltac:(intros m [t [? _]]%tool_number_MILL; eauto) Hd)
      as (tools2 & E2 & H2).
    destruct (IH (past ++ [line]) tools2) as (tools' & E & H).
    { by rewrite <- app_assoc. }
    exists tools'. split.
    + cbn [scan_lines]. rewrite E1. simpl. rewrite E2. simpl.
      rewrite length_app in E. simpl in E.
      by replace (S (length past)) with (length past + 1)%nat by lia.
    + intros t. rewrite H, H2, H1. rewrite length_app. simpl length.
      destruct (tools !! t); [done|]. cbn [list_find].
      pose proof (elem_of_line_tools t line) as Ht.
      destruct (decide (t ∈ numbers (finditer false LATHE line))) as [Ha|Ha].
      { rewrite decide_True by tauto. simpl. by rewrite Nat.add_0_r. }
      destruct (decide (t ∈ numbers (finditer false MILL line))) as [Hb|Hb].
      { rewrite decide_True by tauto. simpl. by rewrite Nat.add_0_r. }
      rewrite decide_False by tauto.
      rewrite <- option_fmap_compose. apply option_fmap_ext.
      intros [j l]. simpl. f_equal. lia.
Qed.

(** The map [extract_tools] returns: a tool number is bound when some line
    invokes it, to the comment nearest to the first such line. *)
Lemma extract_tools_spec text :
  ∃ tools, extract_tools text = Ok tools
    ∧ ∀ t, tools !! t
           = (fun p => nearest_comment (splitlines text) (fst p) 25)
             <$> list_find (fun l => t ∈ line_tools l) (splitlines text).
Proof.
  destruct (scan_lines_spec (splitlines text) (splitlines text) [] ∅ eq_refl)
    as (tools & E & H).
  exists tools. split; [done|]. intros t. by rewrite H, lookup_empty.
Qed.

(** ** The program name *)

Lemma no_newline_splitlines text : no_newline (splitlines text).
Proof. intros l Hl. by eapply splitlines_no_newline. Qed.

Lemma no_newline_cons l lines :
  no_newline (l :: lines) → (0x0A ∉ l) ∧ no_newline lines.
Proof.
  intros H. split; [apply H, elem_of_cons; auto|].
  intros l' Hl'. apply H, elem_of_cons; auto.
Qed.






Lemma scan_headers_total lines :
  no_newline lines → ∃ r, scan_headers lines = Ok r.
Proof.
  induction lines as [|l lines IH]; intros Hn; [by eexists|].
  apply no_newline_cons in Hn as [Hl Hn]. simpl. rewrite search_HEADER.
  destruct (match_at false HEADER 0 None l) as [m|] eqn:E; [|auto].
  apply header_sound in E as (c & -> & _); [|done]. by eexists.
Qed.







Lemma scan_standalone_total lines : ∀ seen,
  no_newline lines → ∃ r, scan_standalone seen lines = Ok r.
Proof.
  induction lines as [|l lines IH]; intros seen Hn; [by eexists|].
  apply no_newline_cons in Hn as [Hl Hn]. simpl.
  case_bool_decide; [auto|]. destruct seen; [|auto].
  rewrite search_STANDALONE.
  destruct (match_at false STANDALONE 0 None l) as [m|] eqn:E; [|auto].
  apply standalone_sound in E as (c & -> & _); [|done]. by eexists.
Qed.

Lemma record_matches_keeps lines idx t d : ∀ ms tools tools',
  record_matches lines idx ms tools = Ok tools' →
  tools !! t = Some d → tools' !! t = Some d.
Proof.
  induction ms as [|m ms IH]; intros tools tools' H Ht.
  - by injection H as <-.
  - cbn [record_matches] in H.
    apply bind_Ok in H as (g & _ & H). apply bind_Ok in H as (k & _ & H).
    apply bind_Ok in H as (desc & _ & H).
    eapply IH; [exact H|]. by rewrite setdefault_lookup, Ht.
Qed.

Lemma scan_lines_keeps lines t d : ∀ todo idx tools tools',
  scan_lines lines idx todo tools = Ok tools' →
  tools !! t = Some d → tools' !! t = Some d.
Proof.
  induction todo as [|line todo IH]; intros idx tools tools' H Ht.
  - by injection H as <-.
  - cbn [scan_lines] in H.
    apply bind_Ok in H as (tools1 & H1 & H). apply bind_Ok in H as (tools2 & H2 & H).
    eapply IH; [exact H|]. eauto using record_matches_keeps.
Qed.

Lemma line_tools_lathe pre d1 d2 d3 d4 post :
  digits [d1; d2; d3; d4] →
  Z.of_N (10 * Unicode.digit_value d1 + Unicode.digit_value d2)
  ∈ line_tools (pre ++ chr "T" :: d1 :: d2 :: d3 :: d4 :: post).
Proof.
  intros Hd. apply elem_of_line_tools. left.
  apply list_elem_of_omap. eexists. split; [by apply finditer_LATHE|].
  unfold digits in Hd. simpl in Hd.
  repeat match goal with
    | H : _ && _ = true |- _ => apply andb_true_iff in H as [? ?] end.
  by rewrite tool_number_lathe, int_two.
Qed.

Lemma line_tools_mill pre ds post t :
  digits ds → (1 ≤ length ds ≤ 2)%nat → no_digit_next post → int ds = Ok t →
  t ∈ line_tools (pre ++ chr "T" :: ds ++ post).
Proof.
  intros Hd Hlen Hnext Ht. apply elem_of_line_tools. right.
  apply list_elem_of_omap. eexists. split; [by apply finditer_MILL|].
  by rewrite tool_number_mill, Ht.
Qed.

Lemma extract_tools_invoked text line t :
  line ∈ splitlines text → t ∈ line_tools line →
  ∃ tools, extract_tools text = Ok tools ∧ is_Some (tools !! t).
Proof.
  intros Hl Ht. destruct (extract_tools_spec text) as (tools & E & H).
  exists tools. split; [done|]. rewrite H.
  destruct (list_find_elem_of (fun l => t ∈ line_tools l) _ _ Hl Ht) as [p ->].
  by eexists.
Qed.

(** ** The report *)

Lemma append_tool_lines_spec tools : ∀ ts lines,
  (∀ t, t ∈ ts → is_Some (tools !! t)) →
  append_tool_lines tools ts lines = Ok (lines ++ map (tool_line tools) ts).
Proof.
  induction ts as [|t ts IH]; intros lines Hts.
  - simpl. by rewrite app_nil_r.
  - destruct (Hts t) as [d Hd]; [apply elem_of_cons; auto|].
    cbn [append_tool_lines]. unfold getkey. rewrite Hd. cbn [mbind res_bind].
    assert (Hline : tool_line tools t
                    = match strip d with
                      | _ :: _ => py "T" ++ format_02d t ++ py " - " ++ strip d
                      | [] => py "T" ++ format_02d t
                      end).
    { unfold tool_line. rewrite Hd. simpl default.
      destruct (strip d); [|done]. simpl. by rewrite app_nil_r. }
    assert (Hrec : ∀ l, append_tool_lines tools ts (lines ++ [l])
                        = Ok (lines ++ l :: map (tool_line tools) ts)).
    { intros l. rewrite IH; [by rewrite <- app_assoc|].
      intros t' Ht'. apply Hts, elem_of_cons; auto. }
    cbn [map]. rewrite Hline. destruct (strip d); apply Hrec.
Qed.

Lemma StronglySorted_le_lt (l : list Z) :
  StronglySorted Z.le l → NoDup l → StronglySorted Z.lt l.
Proof.
  induction 1 as [|a l Hs IH Ha]; intros Hnd; [constructor|].
  apply NoDup_cons in Hnd as [Hin Hnd]. constructor; [auto|].
  rewrite Forall_forall in Ha |- *. intros x Hx.
  assert (a ≠ x) by (intros ->; done). specialize (Ha x Hx). lia.
Qed.

Lemma sorted_keys_spec (tools : gmap Z (list N)) :
  StronglySorted Z.lt (sorted_keys tools)
  ∧ ∀ t, t ∈ sorted_keys tools ↔ is_Some (tools !! t).
Proof.
  unfold sorted_keys. split.
  - apply StronglySorted_le_lt; [apply StronglySorted_merge_sort; apply _|].
    rewrite merge_sort_Permutation. apply NoDup_fst_map_to_list.
  - intros t. rewrite merge_sort_Permutation. rewrite list_elem_of_fmap. split.
    + intros ([k d] & -> & H). apply elem_of_map_to_list in H. by eexists.
    + intros [d H]. exists (t, d). split; [done|]. by apply elem_of_map_to_list.
Qed.

Lemma format_tool_list_spec name (tools : gmap Z (list N)) :
  format_tool_list name tools = Ok (report name tools (sorted_keys tools)).
Proof.
  unfold format_tool_list, report, report_with.
  assert (Hh : py "Tool List for ( " ++ or_else name (py "UNKNOWN PROGRAM") ++ py " )."
               = header_line name).
  { unfold header_line. by destruct name as [[|c n]|]. }
  rewrite Hh. case_bool_decide as He.
  - subst tools. unfold sorted_keys. rewrite map_to_list_empty. done.
  - rewrite append_tool_lines_spec by (intros t; apply sorted_keys_spec).
    cbn [mbind res_bind]. destruct (sorted_keys tools) as [|k ks] eqn:Ek; [|done].
    exfalso. apply He. apply map_empty. intros t.
    destruct (tools !! t) as [d|] eqn:Et; [|done].
    assert (t ∈ sorted_keys tools) as Hin by (apply sorted_keys_spec; eauto).
    rewrite Ek in Hin. by apply elem_of_nil in Hin.
Qed.

Lemma format_02d_small_check :
  forallb (fun n => bool_decide
             (format_02d (Z.of_nat n)
              = [0x30 + N.of_nat n / 10; 0x30 + N.of_nat n mod 10]))
          (seq 0 100) = true.
Proof. vm_compute. reflexivity. Qed.

(** A tool number below 100 is written with exactly two digits. *)
Lemma format_02d_small (t : Z) :
  (0 ≤ t < 100)%Z →
  format_02d t = [0x30 + Z.to_N t / 10; 0x30 + Z.to_N t mod 10].
Proof.
  intros Ht. pose proof format_02d_small_check as H.
  rewrite forallb_forall in H. specialize (H (Z.to_nat t)).
  rewrite Z2Nat.id, Z_nat_N in H by lia.
  apply bool_decide_eq_true in H; [done|]. apply in_seq. lia.
Qed.

Lemma format_02d_nonneg (t : Z) :
  (0 ≤ t)%Z → format_02d t = zero_pad 2 (decimal (Z.to_N t)).
Proof.
  intros Ht. unfold format_02d.
  by assert ((t <? 0)%Z = false) as -> by (apply Z.ltb_ge; lia).
Qed.

(** ** Deciding the shapes on a given line *)



(** A decidable proposition settled by evaluation. *)
Ltac decide_by_compute :=
  refine (bool_decide_unpack _ _); vm_compute; exact I.

(** ** Trimming *)

Lemma lstrip_split s :
  ∃ ws, s = ws ++ lstrip s ∧ blank ws ∧ no_space_head (lstrip s).
Proof.
  induction s as [|c s (ws & E & Hws & Hh)].
  - exists []. split_and!; [done..|]. by intros c.
  - simpl. destruct (Unicode.is_space c) eqn:Hc.
    + exists (c :: ws). split_and!; [by rewrite E at 1| |done].
      unfold blank. simpl. by rewrite Hc.
    + exists []. split_and!; [done..|]. intros c' [= <-]. done.
Qed.

Lemma lstrip_id s : no_space_head s → lstrip s = s.
Proof.
  intros H. destruct s as [|c s]; [done|]. simpl. by rewrite (H c eq_refl).
Qed.

Lemma lstrip_blank_app ws s : blank ws → lstrip (ws ++ s) = lstrip s.
Proof.
  unfold blank. induction ws as [|c ws IH]; [done|]. simpl.
  intros [Hc Hws]%andb_true_iff. rewrite Hc. auto.
Qed.

Lemma head_rev {A} (l : list A) : head (rev l) = last l.
Proof.
  induction l as [|a l IH] using rev_ind; [done|].
  by rewrite rev_app_distr, last_snoc.
Qed.

Lemma last_rev {A} (l : list A) : last (rev l) = head l.
Proof. by rewrite <- head_rev, rev_involutive. Qed.

Lemma rstrip_split s :
  ∃ ws, s = rstrip s ++ ws ∧ blank ws ∧ no_space_last (rstrip s).
Proof.
  unfold rstrip. destruct (lstrip_split (rev s)) as (ws & E & Hws & Hh).
  exists (rev ws). split_and!.
  - rewrite <- rev_app_distr, <- E. by rewrite rev_involutive.
  - unfold blank. by rewrite forallb_rev.
  - intros c Hc. rewrite last_rev in Hc. by apply Hh.
Qed.

Lemma rstrip_id s : no_space_last s → rstrip s = s.
Proof.
  intros H. unfold rstrip. rewrite lstrip_id; [apply rev_involutive|].
  intros c Hc. rewrite head_rev in Hc. by apply H.
Qed.

Lemma rstrip_blank_app s ws : blank ws → rstrip (s ++ ws) = rstrip s.
Proof.
  intros H. unfold rstrip. rewrite rev_app_distr, lstrip_blank_app; [done|].
  unfold blank. by rewrite forallb_rev.
Qed.

Lemma rstrip_keeps_head s : no_space_head s → no_space_head (rstrip s).
Proof.
  intros H c Hc. destruct (rstrip_split s) as (ws & E & _ & _).
  destruct (rstrip s) as [|c' r]; [done|]. injection Hc as ->.
  apply H. by rewrite E.
Qed.

Lemma strip_edges s : no_space_head (strip s) ∧ no_space_last (strip s).
Proof.
  unfold strip. destruct (lstrip_split s) as (ws & _ & _ & Hh).
  destruct (rstrip_split (lstrip s)) as (ws' & _ & _ & Hl).
  split; [by apply rstrip_keeps_head|done].
Qed.

Lemma strip_id s : no_space_head s → no_space_last s → strip s = s.
Proof. intros Hh Hl. unfold strip. by rewrite lstrip_id, rstrip_id. Qed.

Lemma trimmed_iff s : trimmed s ↔ no_space_head s ∧ no_space_last s.
Proof.
  split.
  - intros <-. apply strip_edges.
  - intros [? ?]. by apply strip_id.
Qed.

Lemma strip_trimmed s : trimmed (strip s).
Proof. apply trimmed_iff, strip_edges. Qed.

Lemma strip_split s :
  ∃ ws ws', s = ws ++ strip s ++ ws' ∧ blank ws ∧ blank ws'.
Proof.
  destruct (lstrip_split s) as (ws & E & Hws & _).
  destruct (rstrip_split (lstrip s)) as (ws' & E' & Hws' & _).
  exists ws, ws'. split_and!; [|done..]. unfold strip. by rewrite <- E', <- E.
Qed.

Lemma lstrip_app s t :
  lstrip (s ++ t) = match lstrip s with [] => lstrip t | _ => lstrip s ++ t end.
Proof.
  induction s as [|c s IH]; simpl.
  - by destruct (lstrip t).
  - by destruct (Unicode.is_space c).
Qed.

Lemma lstrip_blank ws : blank ws → lstrip ws = [].
Proof.
  intros H. rewrite <- (app_nil_r ws). by rewrite lstrip_blank_app.
Qed.

Lemma strip_padded ws s ws' :
  blank ws → blank ws' → strip (ws ++ s ++ ws') = strip s.
Proof.
  intros H H'. unfold strip. rewrite lstrip_blank_app by done.
  rewrite lstrip_app. destruct (lstrip s) as [|c l] eqn:E.
  - by rewrite lstrip_blank.
  - by rewrite rstrip_blank_app.
Qed.

Lemma lstrip_length s : (length (lstrip s) ≤ length s)%nat.
Proof.
  destruct (lstrip_split s) as (ws & E & _). rewrite E at 2.
  rewrite length_app. lia.
Qed.

Lemma strip_length s : (length (strip s) ≤ length s)%nat.
Proof.
  destruct (strip_split s) as (ws & ws' & E & _). rewrite E at 2.
  rewrite !length_app. lia.
Qed.

(** ** Removing the match of an anchored pattern *)

Lemma sub_empty_from_anchored ic r :
  (∀ pos prev rest, pos ≠ 0%nat → match_at ic r pos prev rest = None) →
  ∀ rest skip pos prev, pos ≠ 0%nat →
    sub_empty_from ic r skip pos prev rest = drop skip rest.
Proof.
  intros Hr. induction rest as [|c rest IH]; intros skip pos prev Hpos.
  - destruct skip; simpl; [|done]. by rewrite Hr.
  - destruct skip as [|skip]; simpl.
    + rewrite Hr by done. rewrite IH by done. done.
    + by apply IH.
Qed.

Lemma sub_empty_anchored ic r s :
  (∀ pos prev rest, pos ≠ 0%nat → match_at ic r pos prev rest = None) →
  sub_empty ic r s
  = match match_at ic r 0 None s with
    | Some m => drop (m_end m) s
    | None => s
    end.
Proof.
  intros Hr. unfold sub_empty. destruct s as [|c s]; simpl.
  - destruct (match_at _ _ _ _ _) as [m|]; [|done].
    rewrite drop_nil. by destruct (m_end m - 0)%nat.
  - destruct (match_at ic r 0 None (c :: s)) as [m|].
    + rewrite Nat.sub_0_r. destruct (m_end m) as [|n]; simpl.
      * by rewrite sub_empty_from_anchored.
      * by rewrite sub_empty_from_anchored.
    + by rewrite sub_empty_from_anchored.
Qed.

Lemma rmatch_cat_cons_sound ic r rs st k res :
  rmatch ic (cat (r :: rs)) st k = Some res →
  ∃ st1, denote ic r st st1 ∧ rmatch ic (cat rs) st1 k = Some res.
Proof. intros H. by apply (proj1 (rmatch_denote ic r st _)) in H. Qed.

Lemma denote_In ic cl p pv rest gs st1 :
  denote ic (In cl) (Cursor p pv rest gs) st1 ↔
  ∃ c rest', rest = c :: rest' ∧ in_class cl c = true
    ∧ st1 = Cursor (S p) (Some c) rest' gs.
Proof. done. Qed.

(** A greedy star at the end of a pattern takes the whole run. *)
Lemma rep_greedy_last cl rest : ∀ gs pos prev,
  ∃ w rest1,
    rest = w ++ rest1 ∧ forallb (in_class cl) w = true
    ∧ (∀ c, head rest1 = Some c → in_class cl c = false)
    ∧ rep true cl 0 None gs pos prev rest Some
      = Some (Cursor (length w + pos) (prev_after prev w) rest1 gs).
Proof.
  induction rest as [|c rest IH]; intros gs pos prev.
  - exists [], []. by split_and!.
  - simpl. destruct (in_class cl c) eqn:Hc; simpl.
    + destruct (IH gs (S pos) (Some c)) as (w & rest1 & -> & Hw & Hn & ->).
      exists (c :: w), rest1. split_and!; [done| |done|].
      * simpl. by rewrite Hc.
      * simpl. do 2 f_equal. lia.
    + exists [], (c :: rest). split_and!; [done..| |done].
      by intros c' [= <-].
Qed.

(** What [re.sub] removes from the front of a string for the letter-dash
    pattern: nothing, or a prefix after which no whitespace follows. *)
Lemma drop_letter_dash_cases s :
  drop_letter_dash s = s
  ∨ ∃ w r, s = w ++ r ∧ w ≠ [] ∧ drop_letter_dash s = r ∧ no_space_head r.
Proof.
  unfold drop_letter_dash. rewrite sub_empty_anchored
    by (intros; by apply anchored_cat).
  destruct (match_at false LETTER_DASH 0 None s) as [m|] eqn:E; [|by left].
  right. unfold match_at in E.
  destruct (rmatch false LETTER_DASH _ Some) as [st|] eqn:Er; [|done].
  injection E as <-. unfold LETTER_DASH, star in Er.
  apply rmatch_cat_cons_sound in Er as (st1 & [_ ->]%denote_Bol & Er).
  apply rmatch_cat_cons_sound in Er as (st2 & Hd & Er).
  apply denote_Rep in Hd as (w1 & r1 & -> & _ & _ & _ & ->).
  apply rmatch_cat_cons_sound in Er as (st3 & Hd & Er).
  apply denote_In in Hd as (c & r2 & -> & _ & ->).
  apply rmatch_cat_cons_sound in Er as (st4 & Hd & Er).
  apply denote_Rep in Hd as (w2 & r3 & -> & _ & _ & _ & ->).
  apply rmatch_cat_cons_sound in Er as (st5 & Hd & Er).
  apply denote_Chr in Hd as (r4 & -> & ->).
  cbn [cat foldr rmatch c_groups c_pos c_prev c_rest] in Er.
  match type of Er with rep true ?cl 0 None ?gs ?pos ?prev ?rest _ = _ =>
    destruct (rep_greedy_last cl rest gs pos prev) as (w3 & r5 & -> & _ & Hn & E)
  end.
  change (fun st1 : cursor => Some st1) with (@Some cursor) in Er.
  rewrite E in Er. injection Er as <-. cbn [m_end c_pos].
  exists (w1 ++ c :: w2 ++ chr "-" :: w3), r5. split_and!.
  - by rewrite <- !app_assoc; simpl; rewrite <- !app_assoc.
  - by destruct w1.
  - replace (w1 ++ c :: w2 ++ chr "-" :: w3 ++ r5)
      with ((w1 ++ c :: w2 ++ chr "-" :: w3) ++ r5)
      by (by rewrite <- !app_assoc; simpl; rewrite <- !app_assoc).
    replace (length w3 + S (length w2 + S (length w1 + 0)))%nat
      with (length (w1 ++ c :: w2 ++ chr "-" :: w3))
      by (rewrite !length_app; simpl; rewrite !length_app; simpl; lia).
    apply drop_app_length.
  - exact Hn.
Qed.

Lemma drop_letter_dash_length s : (length (drop_letter_dash s) ≤ length s)%nat.
Proof.
  destruct (drop_letter_dash_cases s) as [->|(w & r & -> & _ & -> & _)];
    [done|]. rewrite length_app. lia.
Qed.

Lemma drop_letter_dash_trimmed s : trimmed s → trimmed (drop_letter_dash s).
Proof.
  intros Hs. destruct (drop_letter_dash_cases s) as [->|(w & r & -> & _ & -> & Hh)];
    [done|].
  apply trimmed_iff. split; [done|]. apply trimmed_iff in Hs as [_ Hl].
  intros c Hc. apply Hl. rewrite last_app. by rewrite Hc.
Qed.

(** ** Where a description comes from *)

Lemma qualifying_Some line d :
  qualifying line = Some d →
  is_noise_comment d = false
  ∧ ∃ c, c ∈ _comments_on_line line ∧ d = drop_letter_dash (strip c).
Proof.
  unfold qualifying, candidates. intros H. apply find_some in H as [Hin Hn].
  split; [by apply negb_true_iff|].
  apply in_map_iff in Hin as (c & <- & Hc). exists c. split; [|done].
  apply list_elem_of_In. by apply in_rev.
Qed.

Lemma head_elem_of {A} (l : list A) x : head l = Some x → x ∈ l.
Proof. destruct l; intros [= ->]. apply elem_of_cons; auto. Qed.

Lemma nearest_comment_cases lines i bw :
  nearest_comment lines i bw = []
  ∨ ∃ k line, (k ≤ min i bw)%nat ∧ lines !! (i - k)%nat = Some line
      ∧ qualifying line = Some (nearest_comment lines i bw).
Proof.
  unfold nearest_comment.
  destruct (head (omap qualifying (examined lines i bw))) as [d|] eqn:E;
    [|by left].
  right. apply head_elem_of in E. apply list_elem_of_omap in E as (line & Hl & Hq).
  unfold examined in Hl. apply list_elem_of_omap in Hl as (k & Hk & Hl).
  apply elem_of_seq in Hk. exists k, line. split_and!; [lia|done..].
Qed.

Lemma not_noise_length d : is_noise_comment d = false → (3 ≤ length d)%nat.
Proof.
  unfold is_noise_comment. intros H.
  destruct (length (drop_letter_dash (strip d)) <? 3)%nat eqn:E; [done|].
  apply Nat.ltb_ge in E.
  pose proof (drop_letter_dash_length (strip d)). pose proof (strip_length d). lia.
Qed.

Lemma stored_description_source (text : str) (tools : gmap Z (list N))
    (t : Z) (d : str) :
  extract_tools text = Ok tools → tools !! t = Some d → d ≠ [] →
  is_noise_comment d = false
  ∧ ∃ i l k line c,
      list_find (fun l => t ∈ line_tools l) (splitlines text) = Some (i, l)
      ∧ (k ≤ 25)%nat ∧ splitlines text !! (i - k)%nat = Some line
      ∧ c ∈ _comments_on_line line ∧ d = drop_letter_dash (strip c).
Proof.
  intros E Ht Hd. destruct (extract_tools_spec text) as (tools' & E' & H).
  rewrite E in E'. injection E' as <-. rewrite H in Ht.
  destruct (list_find _ _) as [[i l]|] eqn:Hf; [|done].
  injection Ht as Ht. simpl in Ht.
  destruct (nearest_comment_cases (splitlines text) i 25)
    as [E0|(k & line & Hk & Hl & Hq)]; [congruence|].
  rewrite Ht in Hq. apply qualifying_Some in Hq as (Hn & c & Hc & ->).
  split; [done|]. exists i, l, k, line, c. split_and!; (done || lia).
Qed.

Lemma stored_description_strip (text : str) (tools : gmap Z (list N))
    (t : Z) (d : str) :
  extract_tools text = Ok tools → tools !! t = Some d → strip d = d.
Proof.
  intros E Ht. destruct (decide (d = [])) as [->|Hd]; [done|].
  destruct (stored_description_source text tools t d E Ht Hd)
    as (_ & i & l & k & line & c & _ & _ & _ & _ & ->).
  apply drop_letter_dash_trimmed, strip_trimmed.
Qed.

(** ** The characters of a line *)

Lemma splitlines_subset_upto n : ∀ s line c,
  (length s ≤ n)%nat → line ∈ splitlines s → c ∈ line → c ∈ s.
Proof.
  induction n as [|n IH]; intros s line c Hlen Hin Hc.
  - destruct s; [|simpl in Hlen; lia]. by apply elem_of_nil in Hin.
  - destruct s as [|c0 s]; [by apply elem_of_nil in Hin|].
    simpl in Hlen, Hin. apply elem_of_cons.
    destruct (Unicode.is_linebreak c0).
    + apply elem_of_cons in Hin as [->|Hin]; [by apply elem_of_nil in Hc|].
      right. destruct s as [|c1 s']; [by apply elem_of_nil in Hin|].
      simpl in Hlen. destruct ((c0 =? 13) && (c1 =? 10)).
      * apply elem_of_cons. right. eapply (IH s'); eauto. lia.
      * eapply (IH (c1 :: s')); eauto. simpl. lia.
    + destruct (splitlines s) as [|l ls] eqn:Hs.
      * apply list_elem_of_singleton in Hin as ->.
        apply list_elem_of_singleton in Hc as ->. auto.
      * apply elem_of_cons in Hin as [->|Hin].
        -- apply elem_of_cons in Hc as [->|Hc]; [auto|]. right.
           eapply (IH s); [lia| |exact Hc]. rewrite Hs. apply elem_of_cons; auto.
        -- right. eapply (IH s); [lia| |exact Hc]. rewrite Hs.
           apply elem_of_cons; auto.
Qed.

Lemma splitlines_subset s line c : line ∈ splitlines s → c ∈ line → c ∈ s.
Proof. apply (splitlines_subset_upto (length s)). lia. Qed.

(** ** Only tool calls give tool numbers *)

Lemma line_tools_inv t line :
  t ∈ line_tools line →
  ∃ pre post,
    (∃ d1 d2 d3 d4,
       line = pre ++ chr "T" :: d1 :: d2 :: d3 :: d4 :: post
       ∧ digits [d1; d2; d3; d4]
       ∧ t = Z.of_N (10 * Unicode.digit_value d1 + Unicode.digit_value d2))
    ∨ (∃ ds,
         line = pre ++ chr "T" :: ds ++ post
         ∧ digits ds ∧ (1 ≤ length ds ≤ 2)%nat ∧ no_digit_next post
         ∧ int ds = Ok t).
Proof.
  intros [Ht|Ht]%elem_of_line_tools;
    apply list_elem_of_omap in Ht as (m & Hm & Ht);
    apply finditer_from_sound in Hm as (pre & rest & -> & Hm).
  - apply lathe_sound in Hm as (d1 & d2 & d3 & d4 & post & -> & Hd & ->).
    exists pre, post. left. exists d1, d2, d3, d4. split_and!; [done..|].
    rewrite tool_number_lathe in Ht. unfold digits in Hd. simpl in Hd.
    repeat match goal with
      | H : _ && _ = true |- _ => apply andb_true_iff in H as [? ?] end.
    rewrite int_two in Ht by done. by injection Ht.
  - apply mill_sound in Hm as (ds & post & -> & Hd & Hlen & Hnext & ->).
    exists pre, post. right. exists ds.
    rewrite tool_number_mill in Ht.
    split_and!; try done; try lia. by destruct (int ds); simplify_eq.
Qed.

Lemma line_tools_need_T t line : t ∈ line_tools line → chr "T" ∈ line.
Proof.
  intros (pre & post & [(d1 & d2 & d3 & d4 & -> & _)|(ds & -> & _)])%line_tools_inv;
    set_solver.
Qed.

(** A string is cut at the only occurrence of a character in one way. *)
Lemma split_at_only (x : N) (a b a' b' : list N) :
  x ∉ a → x ∉ b → a ++ x :: b = a' ++ x :: b' → a = a' ∧ b = b'.
Proof.
  revert a'. induction a as [|y a IH]; intros [|y' a'] Ha Hb E; cbn [app] in E.
  - by injection E as ->.
  - injection E as -> ->. destruct Hb. apply elem_of_app. right.
    apply elem_of_cons. auto.
  - injection E as -> _. destruct Ha. apply elem_of_cons. auto.
  - injection E as -> E. apply not_elem_of_cons in Ha as [_ Ha].
    by destruct (IH a' Ha Hb E) as [-> ->].
Qed.

Lemma digit_not_T d : Unicode.is_digit d = true → d ≠ chr "T".
Proof. by intros H ->. Qed.

(** The one tool number of a line whose only [T] is followed by four
    digits: the last two digits give none. *)
Lemma lathe_call_only_number pre d1 d2 d3 d4 post t :
  digits [d1; d2; d3; d4] → chr "T" ∉ pre → chr "T" ∉ post →
  t ∈ line_tools (pre ++ chr "T" :: d1 :: d2 :: d3 :: d4 :: post) →
  t = Z.of_N (10 * Unicode.digit_value d1 + Unicode.digit_value d2).
Proof.
  intros Hd Hpre Hpost Ht. unfold digits in Hd. cbn [forallb] in Hd.
  repeat match goal with
    | H : _ && _ = true |- _ => apply andb_true_iff in H as [? ?] end.
  assert (Hrest : chr "T" ∉ d1 :: d2 :: d3 :: d4 :: post).
  { repeat (apply not_elem_of_cons; split; [by apply not_eq_sym, digit_not_T|]).
    done. }
  apply line_tools_inv in Ht
    as (pre' & post' & [(e1 & e2 & e3 & e4 & E & _ & ->)|(ds & E & Hds & Hlen & Hnext & _)]);
    apply split_at_only in E as [_ E]; try done.
  - by injection E as <- <- _ _ _.
  - exfalso. destruct ds as [|a [|b [|c ds]]]; cbn [length] in Hlen; try lia;
      cbn [app] in E.
    + injection E as _ <-. by rewrite (Hnext d2 eq_refl) in *.
    + injection E as _ _ <-. by rewrite (Hnext d3 eq_refl) in *.
Qed.

(** ** Lazy quantifiers and the comment pattern *)

(** A lazy quantifier stops at the first length at which the rest of the
    pattern matches. *)
Lemma rep_lazy_first rest : ∀ cl lo hi gs pos prev k res,
  rep false cl lo hi gs pos prev rest k = Some res →
  ∃ w rest1,
    rest = w ++ rest1 ∧ forallb (in_class cl) w = true
    ∧ (lo ≤ length w)%nat
    ∧ k (moved (Cursor pos prev rest gs) w rest1) = Some res
    ∧ ∀ w1 w2, w = w1 ++ w2 → w2 ≠ [] → (lo ≤ length w1)%nat →
        k (moved (Cursor pos prev rest gs) w1 (w2 ++ rest1)) = None.
Proof.
  induction rest as [|c rest IH]; intros cl lo hi gs pos prev k res H.
  - simpl in H. destruct lo; [|done]. unfold orelse in H.
    destruct (k _) eqn:Hk; [|done]. injection H as ->.
    exists [], []. split_and!; [done..|].
    intros w1 w2 Hw. by destruct w1, w2.
  - simpl in H.
    set (more := if in_class cl c && negb (bool_decide (hi = Some 0%nat))
                 then rep false cl (pred lo) (pred <$> hi) gs (S pos) (Some c) rest k
                 else None) in H.
    assert (Hmore : more = Some res →
      ∃ w rest1, rest = w ++ rest1 ∧ in_class cl c = true
        ∧ forallb (in_class cl) w = true ∧ (pred lo ≤ length w)%nat
        ∧ k (moved (Cursor pos prev (c :: rest) gs) (c :: w) rest1) = Some res
        ∧ ∀ w1 w2, w = w1 ++ w2 → w2 ≠ [] → (pred lo ≤ length w1)%nat →
            k (moved (Cursor pos prev (c :: rest) gs) (c :: w1) (w2 ++ rest1)) = None).
    { unfold more. destruct (in_class cl c) eqn:Hc; [|done].
      destruct (negb _); [|done]. simpl. intros Hr.
      apply IH in Hr as (w & rest1 & -> & Hw & Hlo & Hk & Hfirst).
      exists w, rest1. split_and!; [done..| |].
      - rewrite <- Hk. unfold moved. simpl. do 2 f_equal. lia.
      - intros w1 w2 Hw12 Hw2 Hlen. rewrite <- (Hfirst w1 w2 Hw12 Hw2 Hlen).
        unfold moved. simpl. do 2 f_equal. lia. }
    destruct lo as [|lo].
    + unfold orelse in H. destruct (k _) eqn:Hk.
      * injection H as ->. exists [], (c :: rest). split_and!; [done..|].
        intros w1 w2 Hw. by destruct w1, w2.
      * apply Hmore in H as (w & rest1 & -> & Hc & Hw & _ & Hk' & Hfirst).
        exists (c :: w), rest1. split_and!; [done| |simpl; lia|done|].
        { simpl. by rewrite Hc, Hw. }
        intros [|c' w1] w2 Hw12 Hw2 _; [simpl in Hw12; by subst w2|].
        injection Hw12 as <- Hw12. apply Hfirst; [done..|simpl; lia].
    + apply Hmore in H as (w & rest1 & -> & Hc & Hw & Hlo & Hk' & Hfirst).
      exists (c :: w), rest1. split_and!; [done| |simpl in *; lia|done|].
      { simpl. by rewrite Hc, Hw. }
      intros [|c' w1] w2 Hw12 Hw2 Hlen; [simpl in Hlen; lia|].
      injection Hw12 as <- Hw12. apply Hfirst; [done..|simpl in *; lia].
Qed.

Lemma comment_sound pos prev rest m :
  match_at false COMMENT pos prev rest = Some m →
  ∃ c post, rest = chr "(" :: c ++ chr ")" :: post
            ∧ comment_body c ∧ m = comment_match pos c.
Proof.
  unfold match_at. destruct (rmatch _ _ _ _) as [st|] eqn:Er; [|done].
  intros [= <-]. unfold COMMENT, plus_lazy in Er.
  apply rmatch_cat_cons_sound in Er as (st1 & Hd & Er).
  apply denote_Chr in Hd as (r1 & -> & ->).
  cbn [cat foldr rmatch c_groups c_pos c_prev c_rest] in Er.
  apply rep_lazy_first in Er as (w & rest1 & -> & Hw & Hlo & Hk & Hfirst).
  cbn [close_group moved c_rest c_pos c_prev c_groups] in Hk, Hfirst.
  destruct rest1 as [|c' post]; [done|].
  unfold lit_eq in Hk. destruct (N.eqb_spec c' (chr ")")) as [->|]; [|done].
  injection Hk as <-. exists w, post.
  split; [done|]. split; [unfold comment_body; split_and!|].
  - by apply nonempty_length.
  - intros Hin. apply list_elem_of_In in Hin.
    rewrite forallb_forall in Hw. specialize (Hw _ Hin). discriminate Hw.
  - destruct w as [|a t]; [apply not_elem_of_nil|]. cbn [tail]. intros Hin.
    apply list_elem_of_split in Hin as (t1 & t2 & ->).
    specialize (Hfirst (a :: t1) (chr ")" :: t2) eq_refl).
    cbn [app] in Hfirst. unfold lit_eq in Hfirst. rewrite N.eqb_refl in Hfirst.
    discriminate Hfirst; [done|cbn [length]; lia].
  - unfold comment_match, advance, close_group. simpl. do 3 f_equal.
    replace (length w + S pos - S pos)%nat with (length w) by lia.
    by rewrite take_app_length.
Qed.

Lemma comments_on_line_sound line c :
  c ∈ _comments_on_line line →
  ∃ pre post, line = pre ++ chr "(" :: c ++ chr ")" :: post ∧ comment_body c.
Proof.
  unfold _comments_on_line, findall1. intros Hc.
  apply list_elem_of_omap in Hc as (m & Hm & Hg).
  apply finditer_from_sound in Hm as (pre & rest' & -> & Hm).
  apply comment_sound in Hm as (c0 & post & -> & Hb & ->).
  assert (c0 = c) as -> by (unfold comment_match, group in Hg; simpl in Hg; congruence).
  by exists pre, post.
Qed.

Lemma comment_in_line line c x :
  c ∈ _comments_on_line line → x ∈ c → x ∈ line.
Proof.
  intros (pre & post & -> & _)%comments_on_line_sound Hx.
  rewrite elem_of_app, elem_of_cons, elem_of_app. auto.
Qed.

(** ** Strings that stay on one line *)

Lemma strip_elem s x : x ∈ strip s → x ∈ s.
Proof.
  intros Hx. destruct (strip_split s) as (ws & ws' & E & _). rewrite E.
  rewrite !elem_of_app. auto.
Qed.

Lemma drop_letter_dash_elem s x : x ∈ drop_letter_dash s → x ∈ s.
Proof.
  destruct (drop_letter_dash_cases s) as [->|(w & r & E & _ & -> & _)]; [done|].
  intros Hx. rewrite E, elem_of_app. auto.
Qed.

Lemma one_line_app s t : one_line (s ++ t) ↔ one_line s ∧ one_line t.
Proof.
  unfold one_line. split.
  - intros H. split; intros c Hc; apply H, elem_of_app; auto.
  - intros [Hs Ht] c [Hc|Hc]%elem_of_app; auto.
Qed.

Lemma one_line_cons c s :
  one_line (c :: s) ↔ Unicode.is_linebreak c = false ∧ one_line s.
Proof.
  unfold one_line. split.
  - intros H. split; [apply H, elem_of_cons; auto|].
    intros c' Hc'. apply H, elem_of_cons; auto.
  - intros [Hc Hs] c' [->|Hc']%elem_of_cons; auto.
Qed.

Lemma one_line_nil : one_line [].
Proof. intros c Hc. by apply elem_of_nil in Hc. Qed.

Lemma one_line_forallb s :
  forallb (fun c => negb (Unicode.is_linebreak c)) s = true → one_line s.
Proof.
  rewrite forallb_forall. intros H c Hc%list_elem_of_In.
  apply H in Hc. by apply negb_true_iff.
Qed.

Lemma splitlines_one_line line text : line ∈ splitlines text → one_line line.
Proof.
  intros Hl c Hc. by eapply (splitlines_no_break_upto (length text) text line).
Qed.

Lemma splitlines_first_line l rest :
  one_line l → splitlines (l ++ newline ++ rest) = l :: splitlines rest.
Proof.
  induction l as [|c l IH]; intros Hl.
  - simpl. by destruct rest.
  - apply one_line_cons in Hl as [Hc Hl]. cbn [app splitlines].
    rewrite Hc. cbn [app] in IH. by rewrite IH.
Qed.

Lemma splitlines_whole l : one_line l → l ≠ [] → splitlines l = [l].
Proof.
  induction l as [|c l IH]; intros Hl Hne; [done|].
  apply one_line_cons in Hl as [Hc Hl]. cbn [splitlines]. rewrite Hc.
  destruct l as [|c' l]; [done|]. by rewrite IH.
Qed.

(** Joining lines with newlines and splitting again gives the lines back,
    unless the last one is empty. *)
Lemma splitlines_join ls :
  Forall one_line ls → last ls ≠ Some [] →
  splitlines (join newline ls) = ls.
Proof.
  induction ls as [|l ls IH]; intros Hall Hlast; [done|].
  apply Forall_cons in Hall as [Hl Hall].
  destruct ls as [|l' ls].
  - simpl in *. apply splitlines_whole; [done|]. congruence.
  - cbn [join]. rewrite splitlines_first_line by done. f_equal.
    apply IH; [done|]. by rewrite last_cons_cons in Hlast.
Qed.

(** ** Where a program name comes from *)

Lemma scan_headers_sound lines n :
  no_newline lines → scan_headers lines = Ok (Some n) →
  ∃ pre line post content,
    lines = pre ++ line :: post ∧ o_number_line line content ∧ n = strip content.
Proof.
  induction lines as [|l lines IH]; intros Hn H; [done|].
  apply no_newline_cons in Hn as [Hl Hn]. simpl in H. rewrite search_HEADER in H.
  destruct (match_at false HEADER 0 None l) as [m|] eqn:E.
  - apply header_sound in E as (c & Hg & Hh); [|done].
    rewrite Hg in H. simpl in H. injection H as <-.
    by exists [], l, lines, c.
  - destruct (IH Hn H) as (pre & line & post & c & -> & ? & ?).
    by exists (l :: pre), line, post, c.
Qed.

Lemma scan_standalone_sound lines : ∀ seen n,
  no_newline lines → scan_standalone seen lines = Ok (Some n) →
  ∃ pre line post content,
    lines = pre ++ line :: post ∧ paren_line line content ∧ n = strip content
    ∧ ¬ has_percent line ∧ (seen = true ∨ ∃ l, l ∈ pre ∧ has_percent l).
Proof.
  induction lines as [|l lines IH]; intros seen n Hn H; [done|].
  apply no_newline_cons in Hn as [Hl Hn]. simpl in H.
  case_bool_decide as Hp.
  - destruct (IH _ _ Hn H) as (pre & line & post & c & -> & ? & ? & ? & _).
    exists (l :: pre), line, post, c. split_and!; [done..|].
    right. exists l. split; [apply elem_of_cons; auto|done].
  - assert (Hrec : scan_standalone seen lines = Ok (Some n) →
      ∃ pre line post content,
        l :: lines = pre ++ line :: post ∧ paren_line line content
        ∧ n = strip content ∧ ¬ has_percent line
        ∧ (seen = true ∨ ∃ l, l ∈ pre ∧ has_percent l)).
    { intros H'. destruct (IH _ _ Hn H') as (pre & line & post & c & -> & ? & ? & ? & Hs).
      exists (l :: pre), line, post, c. split_and!; [done..|].
      destruct Hs as [?|(l' & ? & ?)]; [by left|].
      right. exists l'. split; [apply elem_of_cons; auto|done]. }
    destruct seen; [|auto]. rewrite search_STANDALONE in H.
    destruct (match_at false STANDALONE 0 None l) as [m|] eqn:E; [|auto].
    apply standalone_sound in E as (c & Hg & Hh); [|done].
    rewrite Hg in H. simpl in H. injection H as <-.
    exists [], l, lines, c. split_and!; auto.
Qed.

Lemma o_number_line_content line content x :
  o_number_line line content → x ∈ content → x ∈ line.
Proof.
  intros (ws & ds & ws1 & ws2 & -> & _) Hx.
  rewrite elem_of_app, elem_of_cons, !elem_of_app, elem_of_cons, elem_of_app.
  auto 10.
Qed.

Lemma paren_line_content line content x :
  paren_line line content → x ∈ content → x ∈ line.
Proof.
  intros (ws & ws' & -> & _) Hx.
  rewrite elem_of_app, elem_of_cons, elem_of_app. auto.
Qed.

Lemma program_name_source text n :
  extract_program_name text = Ok (Some n) →
  ∃ pre line post content,
    splitlines text = pre ++ line :: post ∧ n = strip content
    ∧ (o_number_line line content
       ∨ (paren_line line content ∧ ¬ has_percent line
          ∧ ∃ l, l ∈ pre ∧ has_percent l)).
Proof.
  unfold extract_program_name. intros H.
  pose proof (no_newline_splitlines text) as Hn.
  apply bind_Ok in H as ([n'|] & Hh & H).
  - injection H as ->.
    apply scan_headers_sound in Hh as (pre & line & post & c & ? & ? & ?); [|done].
    exists pre, line, post, c. auto.
  - apply scan_standalone_sound in H
      as (pre & line & post & c & ? & ? & ? & ? & Hs); [|done].
    destruct Hs as [?|?]; [done|].
    exists pre, line, post, c. auto 10.
Qed.

Lemma program_name_one_line text n :
  extract_program_name text = Ok (Some n) → one_line n.
Proof.
  intros (pre & line & post & c & E & -> & H)%program_name_source x Hx%strip_elem.
  apply (splitlines_one_line line text).
  - rewrite E, elem_of_app, elem_of_cons. auto.
  - destruct H as [H|(H & _)];
      [by eapply o_number_line_content|by eapply paren_line_content].
Qed.

Lemma stored_description_one_line text tools t d :
  extract_tools text = Ok tools → tools !! t = Some d → one_line d.
Proof.
  intros E Ht. destruct (decide (d = [])) as [->|Hd]; [apply one_line_nil|].
  destruct (stored_description_source text tools t d E Ht Hd)
    as (_ & i & l & k & line & c & _ & _ & Hl & Hc & ->).
  intros x Hx%drop_letter_dash_elem%strip_elem.
  apply (splitlines_one_line line text); [by eapply list_elem_of_lookup_2|].
  by eapply comment_in_line.
Qed.

(** ** The report of a text *)

Lemma program_name_total text : ∃ name, extract_program_name text = Ok name.
Proof.
  destruct (scan_headers_total _ (no_newline_splitlines text)) as [r Hr].
  unfold extract_program_name. rewrite Hr. destruct r; [by eexists|].
  apply scan_standalone_total, no_newline_splitlines.
Qed.

Lemma tool_list_block_report text name (tools : gmap Z (list N)) :
  extract_program_name text = Ok name → extract_tools text = Ok tools →
  tool_list_block text
  = Ok (report_with tool_line_untrimmed name tools (sorted_keys tools)).
Proof.
  intros Hname E. destruct (sorted_keys_spec tools) as [Hs Hk].
  unfold tool_list_block. rewrite Hname, E. cbn [mbind res_bind].
  rewrite format_tool_list_spec. unfold report, report_with.
  assert (Hmap : map (tool_line tools) (sorted_keys tools)
                 = map (tool_line_untrimmed tools) (sorted_keys tools)).
  { apply map_ext_in. intros t Ht.
    apply list_elem_of_In, Hk in Ht as [d Hd].
    unfold tool_line, tool_line_untrimmed. rewrite Hd. simpl default.
    by rewrite (stored_description_strip text tools t d). }
  revert Hmap. destruct (sorted_keys tools); [done|]. by intros ->.
Qed.

Lemma stored_key_range text (tools : gmap Z (list N)) t :
  extract_tools text = Ok tools → is_Some (tools !! t) → (0 ≤ t ≤ 99)%Z.
Proof.
  intros E [d Hd]. destruct (extract_tools_spec text) as (tools' & E' & H).
  rewrite E in E'. injection E' as <-. rewrite H in Hd.
  destruct (list_find _ _) as [[i l]|] eqn:Hf; [|done].
  apply list_find_Some in Hf as (_ & Hl & _). by apply line_tools_range in Hl.
Qed.

Lemma sorted_keys_length (tools : gmap Z (list N)) :
  length (sorted_keys tools) = size tools.
Proof.
  unfold sorted_keys. rewrite merge_sort_Permutation, length_map.
  apply length_map_to_list.
Qed.

Lemma format_02d_one_line_check :
  forallb (fun n => forallb (fun c => negb (Unicode.is_linebreak c))
                      (format_02d (Z.of_nat n)))
          (seq 0 100) = true.
Proof. vm_compute. reflexivity. Qed.

Lemma format_02d_one_line t : (0 ≤ t < 100)%Z → one_line (format_02d t).
Proof.
  intros Ht. pose proof format_02d_one_line_check as H.
  rewrite forallb_forall in H. specialize (H (Z.to_nat t)).
  rewrite Z2Nat.id in H by lia. apply one_line_forallb, H, in_seq. lia.
Qed.

Lemma header_line_one_line name :
  (∀ n, name = Some n → one_line n) → one_line (header_line name).
Proof.
  intros Hn. unfold header_line. apply one_line_app. split.
  { apply one_line_forallb. vm_compute. reflexivity. }
  apply one_line_app. split; [|apply one_line_forallb; vm_compute; reflexivity].
  destruct name as [n|]; [|apply one_line_forallb; vm_compute; reflexivity].
  case_bool_decide; [apply one_line_forallb; vm_compute; reflexivity|auto].
Qed.

Lemma tool_line_one_line (tools : gmap Z (list N)) t :
  (0 ≤ t < 100)%Z → (∀ d, tools !! t = Some d → one_line d) →
  one_line (tool_line_untrimmed tools t).
Proof.
  intros Ht Hd. unfold tool_line_untrimmed. apply one_line_app. split.
  { apply one_line_forallb. vm_compute. reflexivity. }
  apply one_line_app. split; [by apply format_02d_one_line|].
  case_bool_decide; [apply one_line_nil|]. apply one_line_app. split.
  { apply one_line_forallb. vm_compute. reflexivity. }
  destruct (tools !! t) as [d|]; [auto|apply one_line_nil].
Qed.

Lemma report_lines text name (tools : gmap Z (list N)) :
  extract_program_name text = Ok name → extract_tools text = Ok tools →
  splitlines (report_with tool_line_untrimmed name tools (sorted_keys tools))
  = header_line name :: [] ::
      match sorted_keys tools with
      | [] => [py "(No tools found)"]
      | _ => map (tool_line_untrimmed tools) (sorted_keys tools)
      end.
Proof.
  intros Hname E. unfold report_with. apply splitlines_join.
  - apply Forall_cons. split.
    { apply header_line_one_line. intros n ->. by eapply program_name_one_line. }
    apply Forall_cons. split; [apply one_line_nil|].
    destruct (sorted_keys tools) as [|k ks] eqn:Ek.
    { apply Forall_cons. split; [|done]. apply one_line_forallb. vm_compute. reflexivity. }
    rewrite <- Ek. apply Forall_forall. intros l (t & -> & Ht)%list_elem_of_fmap.
    apply (sorted_keys_spec tools) in Ht.
    apply tool_line_one_line.
    + pose proof (stored_key_range _ _ _ E Ht). lia.
    + intros d Hd. by eapply stored_description_one_line.
  - destruct (sorted_keys tools) as [|k ks]; [by vm_compute|].
    cbn [map]. rewrite !last_cons_cons.
    change (tool_line_untrimmed tools k :: map (tool_line_untrimmed tools) ks)
      with (tool_line_untrimmed tools <$> k :: ks).
    rewrite fmap_last. destruct (last (k :: ks)); [|done]. simpl.
    unfold tool_line_untrimmed. intros [=].
Qed.

(** ** The comments of a line, one after the other *)

Lemma notin_forallb (x : N) l :
  x ∉ l → forallb (fun y => negb (y =? x)) l = true.
Proof.
  intros H. apply forallb_forall. intros y Hy%list_elem_of_In.
  apply negb_true_iff, N.eqb_neq. by intros ->.
Qed.

Lemma comment_body_unique c c' post post' :
  comment_body c → comment_body c' →
  c ++ chr ")" :: post = c' ++ chr ")" :: post' → c = c' ∧ post = post'.
Proof.
  intros (Hc & _ & Ht) (Hc' & _ & Ht') E.
  destruct c as [|a t]; [done|]. destruct c' as [|a' t']; [done|].
  cbn [tail app] in *. injection E as -> E.
  apply (prefix_unique (fun y => negb (y =? chr ")"))) in E as [-> ->];
    [done|by apply notin_forallb..|by rewrite N.eqb_refl].
Qed.

Lemma comment_complete pos prev c post :
  comment_body c →
  match_at false COMMENT pos prev (chr "(" :: c ++ chr ")" :: post)
  = Some (comment_match pos c).
Proof.
  intros Hb. pose proof Hb as (Hne & Hnl & _).
  match goal with |- ?x = _ => destruct x as [m|] eqn:E end.
  - apply comment_sound in E as (c0 & post0 & [= E] & Hb0 & ->).
    by apply comment_body_unique in E as [-> _].
  - exfalso. eapply match_at_None; [exact E|]. unfold COMMENT, plus_lazy.
    apply denote_cat_cons. eexists. split; [apply denote_Chr; eauto|].
    apply denote_cat_cons. eexists. split.
    { apply denote_Group_Rep. exists c, (chr ")" :: post).
      split_and!; [done| | |done|done].
      - apply forallb_forall. intros y Hy%list_elem_of_In.
        apply negb_true_iff, N.eqb_neq. by intros ->.
      - destruct c; [done|]. simpl. lia. }
    apply denote_cat_cons. eexists. split; [apply denote_Chr; eauto|].
    by apply denote_cat_nil.
Qed.

Lemma comment_start pos prev rest :
  head rest ≠ Some (chr "(") → match_at false COMMENT pos prev rest = None.
Proof.
  intros H. destruct (match_at _ _ _ _ _) as [m|] eqn:E; [|done].
  by apply comment_sound in E as (c & post & -> & _).
Qed.

Lemma comment_shift pos prev rest :
  match_at false COMMENT pos prev rest
  = (fun m => Match pos (m_end m + pos) (m_groups m))
    <$> match_at false COMMENT 0 None rest.
Proof.
  destruct (match_at false COMMENT 0 None rest) as [m|] eqn:E.
  - apply comment_sound in E as (c & post & -> & Hb & ->).
    rewrite comment_complete by done. simpl. unfold comment_match.
    do 2 f_equal. lia.
  - destruct (match_at false COMMENT pos prev rest) as [m|] eqn:E'; [|done].
    apply comment_sound in E' as (c & post & -> & Hb & ->).
    by rewrite comment_complete in E.
Qed.

(** What the comments hold does not depend on where the scan stands. *)
Lemma comments_from_shift rest : ∀ skip pos prev,
  omap (fun m => group m 1) (finditer_from false COMMENT skip pos prev rest)
  = omap (fun m => group m 1) (finditer_from false COMMENT skip 0 None rest).
Proof.
  induction rest as [|c rest IH]; intros skip pos prev.
  - destruct skip; [|done]. cbn [finditer_from].
    by rewrite !(comment_start _ _ []).
  - destruct skip as [|skip]; cbn [finditer_from].
    + rewrite (comment_shift pos prev).
      destruct (match_at false COMMENT 0 None (c :: rest)) as [m|];
        cbn [fmap option_fmap option_map omap list_omap m_end].
      * change (group (Match pos (m_end m + pos) (m_groups m)) 1) with (group m 1).
        replace (m_end m + pos - pos)%nat with (m_end m - 0)%nat by lia.
        change (list_omap _ _ ?f ?l) with (omap f l).
        by rewrite IH, (IH _ 1%nat).
      * change (list_omap _ _ ?f ?l) with (omap f l).
        by rewrite IH, (IH _ 1%nat).
    + by rewrite IH, (IH _ 1%nat).
Qed.

Lemma finditer_from_skip ic r w : ∀ pos prev rest,
  finditer_from ic r (length w) pos prev (w ++ rest)
  = finditer_from ic r 0 (length w + pos) (prev_after prev w) rest.
Proof.
  induction w as [|c w IH]; intros pos prev rest; [done|].
  cbn [length app finditer_from prev_after]. rewrite IH. f_equal. lia.
Qed.

Lemma comments_skip_pre pre : ∀ pos prev rest,
  chr "(" ∉ pre →
  finditer_from false COMMENT 0 pos prev (pre ++ rest)
  = finditer_from false COMMENT 0 (length pre + pos) (prev_after prev pre) rest.
Proof.
  induction pre as [|c pre IH]; intros pos prev rest Hp; [done|].
  apply not_elem_of_cons in Hp as [Hc Hp].
  cbn [length app finditer_from prev_after].
  rewrite comment_start by (cbn [head]; congruence).
  rewrite IH by done. f_equal. lia.
Qed.

Lemma comments_none line : chr "(" ∉ line → _comments_on_line line = [].
Proof.
  intros H. unfold _comments_on_line, findall1, finditer.
  rewrite <- (app_nil_r line), comments_skip_pre by done.
  cbn [finditer_from]. by rewrite comment_start.
Qed.

Lemma comments_first pre c post :
  chr "(" ∉ pre → comment_body c →
  _comments_on_line (pre ++ chr "(" :: c ++ chr ")" :: post)
  = c :: _comments_on_line post.
Proof.
  intros Hp Hb. unfold _comments_on_line, findall1, finditer.
  rewrite comments_skip_pre by done. cbn [finditer_from].
  rewrite comment_complete by done. cbn [omap list_omap].
  change (group (comment_match (length pre + 0) c) 1) with (Some c).
  cbv iota beta. f_equal.
  replace (pred (m_end (comment_match (length pre + 0) c) - (length pre + 0)))
    with (length (c ++ [chr ")"])).
  - replace (c ++ chr ")" :: post) with ((c ++ [chr ")"]) ++ post)
      by by rewrite <- app_assoc.
    rewrite finditer_from_skip. apply comments_from_shift.
  - unfold comment_match. simpl. rewrite length_app. simpl. lia.
Qed.

Lemma comments_unclosed pre rest :
  chr "(" ∉ pre →
  (∀ c post, comment_body c → rest ≠ c ++ chr ")" :: post) →
  _comments_on_line (pre ++ chr "(" :: rest) = _comments_on_line rest.
Proof.
  intros Hp Hno. unfold _comments_on_line, findall1, finditer.
  rewrite comments_skip_pre by done. cbn [finditer_from].
  destruct (match_at _ _ _ _ _) as [m|] eqn:E.
  - apply comment_sound in E as (c & post & [= ->] & Hb & _).
    by destruct (Hno c post).
  - apply comments_from_shift.
Qed.

(** ** Lines that follow *)

Lemma omap_ext_in {A B} (f g : A → option B) (l : list A) :
  (∀ x, x ∈ l → f x = g x) → omap f l = omap g l.
Proof.
  intros H. apply list_omap_ext, Forall2_same_length_lookup_2; [done|].
  intros i x y Hx Hy. assert (x = y) as <- by congruence.
  apply H. by eapply list_elem_of_lookup_2.
Qed.

Lemma nearest_comment_app lines more i bw :
  (i < length lines)%nat →
  nearest_comment (lines ++ more) i bw = nearest_comment lines i bw.
Proof.
  intros Hi. unfold nearest_comment, examined. do 3 f_equal.
  apply omap_ext_in. intros k _. apply lookup_app_l. lia.
Qed.

(** ** Indexes outside the list, and negative ones *)

Lemma getitem_outside {A} (l : list A) (i : Z) :
  (i < - Z.of_nat (length l) ∨ Z.of_nat (length l) ≤ i)%Z →
  getitem l i = Raise IndexError.
Proof.
  intros H. unfold getitem. cbv zeta.
  destruct (Z.ltb_spec i 0) as [Hneg|Hpos].
  - destruct (Z.ltb_spec (i + Z.of_nat (length l)) 0) as [|Hj]; [done|].
    rewrite lookup_ge_None_2; [done|lia].
  - destruct (Z.ltb_spec i 0); [lia|]. rewrite lookup_ge_None_2; [done|lia].
Qed.

Lemma getitem_negative {A} (l : list A) (i : Z) x :
  (i < 0)%Z → (0 ≤ i + Z.of_nat (length l))%Z →
  l !! Z.to_nat (i + Z.of_nat (length l)) = Some x →
  getitem l i = Ok x.
Proof.
  intros Hneg Hj Hx. unfold getitem. cbv zeta.
  destruct (Z.ltb_spec i 0); [|lia].
  destruct (Z.ltb_spec (i + Z.of_nat (length l)) 0); [lia|]. by rewrite Hx.
Qed.

Lemma range_down_empty start stop : (start ≤ stop)%Z → range_down start stop = [].
Proof.
  intros H. unfold range_down.
  by replace (Z.to_nat (start - stop)) with 0%nat by lia.
Qed.

(** ** The files of a selection *)

Lemma tool_list_block_total text : ∃ block, tool_list_block text = Ok block.
Proof.
  destruct (program_name_total text) as [name Hname].
  destruct (extract_tools_spec text) as (tools & E & _).
  eexists. by apply tool_list_block_report.
Qed.

Lemma get_tool_list_loop_spec basename read n paths : ∀ combined,
  ∃ blocks,
    get_tool_list_loop basename read n paths combined = Ok (combined ++ blocks)
    ∧ Forall2 (shown_for basename read (1 <? n)%nat) paths blocks.
Proof.
  induction paths as [|path paths IH]; intros combined.
  - exists []. by rewrite app_nil_r.
  - cbn [get_tool_list_loop].
    destruct (read path) as [text|e] eqn:Er.
    + destruct (tool_list_block_total text) as [b Hb]. rewrite Hb.
      cbn [mbind res_bind].
      destruct (1 <? n)%nat eqn:En;
        [destruct (IH (combined ++ [file_block (basename path) b])) as (bs & -> & Hbs)
        |destruct (IH (combined ++ [b])) as (bs & -> & Hbs)];
        eexists (_ :: bs); rewrite <- app_assoc; (split; [done|]);
        (apply Forall2_cons; split; [|done]);
        unfold shown_for; rewrite Er; exists b; by rewrite ?En.
    + destruct (IH (combined ++ [file_block (basename path)
                                   (py "Error reading file: " ++ e)]))
        as (bs & -> & Hbs).
      eexists (_ :: bs). rewrite <- app_assoc. split; [done|].
      apply Forall2_cons. split; [|done]. unfold shown_for. by rewrite Er.
Qed.

(** * The claims *)

(** C1. First occurrence wins. When line [line] is the first line of the
    text that invokes tool number [t] (no line before it does), the map
    returned by [extract_tools] binds [t] to the description resolved at that
    line, whatever later lines invoke; and in the scan an entry that is
    already in the map is still there, unchanged, at the end. *)
Theorem first_occurrence_wins (text : str) (t : Z) :
  (∀ past line rest,
     splitlines text = past ++ line :: rest →
     t ∈ line_tools line →
     (∀ l, l ∈ past → t ∉ line_tools l) →
     ∃ tools d,
       extract_tools text = Ok tools
       ∧ _nearest_good_comment (splitlines text) (Z.of_nat (length past))
           search_back_default = Ok d
       ∧ tools !! t = Some d)
  ∧ (∀ lines idx todo tools tools' d,
       scan_lines lines idx todo tools = Ok tools' →
       tools !! t = Some d → tools' !! t = Some d).
Proof.
  split; [|eauto using scan_lines_keeps].
  intros past line rest Hl Ht Hpast.
  destruct (extract_tools_spec text) as (tools & E & H).
  exists tools, (nearest_comment (splitlines text) (length past) 25).
  split_and!; [done| |].
  - apply (nearest_refines _ _ 25). rewrite Hl, length_app. simpl. lia.
  - rewrite H.
    assert (list_find (fun l => t ∈ line_tools l) (splitlines text)
            = Some (length past, line)) as ->; [|done].
    apply list_find_Some. rewrite Hl. split_and!.
    + by rewrite list_lookup_middle.
    + done.
    + intros j y Hy Hj. apply Hpast. rewrite lookup_app_l in Hy by done.
      by eapply list_elem_of_lookup_2.
Qed.

(** Tool 5 is called on the second line and again on the fourth: the map
    keeps the comment of the second. *)
Lemma first_occurrence_wins_witness :
  ∃ tools,
    extract_tools
      (text_of [py "(PROGRAM START)"; py "T05 M06 (DRILL 6MM)"; py "G0 X0";
                py "T05 (REAMER)"])
    = Ok tools
    ∧ tools !! 5%Z = Some (py "DRILL 6MM").
Proof.
  destruct (proj1 (first_occurrence_wins
              (text_of [py "(PROGRAM START)"; py "T05 M06 (DRILL 6MM)";
                        py "G0 X0"; py "T05 (REAMER)"]) 5%Z)
              [py "(PROGRAM START)"] (py "T05 M06 (DRILL 6MM)")
              [py "G0 X0"; py "T05 (REAMER)"])
    as (tools & d & E & Hd & Ht).
  - vm_compute. reflexivity.
  - decide_by_compute.
  - intros l Hl. apply list_elem_of_singleton in Hl. subst l.
    decide_by_compute.
  - exists tools. split; [exact E|]. vm_compute in Hd.
    injection Hd as Hd. rewrite Ht, <- Hd. reflexivity.
Defined.

(** C2, as amended. For every text [extract_tools] returns a map (it does
    not raise) whose keys lie between 0 and 99; its values are strings. *)
Theorem tool_numbers_in_range (text : str) :
  ∃ tools : gmap Z (list N),
    extract_tools text = Ok tools
    ∧ ∀ k d, tools !! k = Some d → (0 ≤ k ≤ 99)%Z.
Proof.
  destruct (extract_tools_spec text) as (tools & E & H).
  exists tools. split; [done|]. intros k d Hk. rewrite H in Hk.
  destruct (list_find _ _) as [[i l]|] eqn:Hf; [|done].
  apply list_find_Some in Hf as (_ & Hl & _). by eapply line_tools_range.
Qed.

(** C2, as stated, fails: [T0] is a tool call, and its number 0 is a key
    outside 1 to 99. *)
Lemma tool_number_zero_is_a_key :
  ¬ ∃ tools : gmap Z (list N),
      extract_tools (py "T0 M06") = Ok tools
      ∧ ∀ k, is_Some (tools !! k) → (1 ≤ k ≤ 99)%Z.
Proof.
  intros (tools & E & H). vm_compute in E. injection E as <-.
  destruct (H 0%Z); [by eexists|]. lia.
Qed.

(** C4. The mill convention. On every line of the text: a [T] followed by
    one or two digits and no further digit is a tool call whose number,
    the digits read as a decimal number, is a key of the map; and every
    match of the mill pattern has that shape, so that it never stops inside
    a longer run of digits.  [T1 (FACE MILL)] gives tool 1 with the
    description [FACE MILL]; [T123] gives no tool at all. *)
Theorem mill_convention :
  (∀ text line,
     line ∈ splitlines text →
     (∀ pre ds post,
        line = pre ++ chr "T" :: ds ++ post →
        digits ds → (1 ≤ length ds ≤ 2)%nat → no_digit_next post →
        ∃ tools t, extract_tools text = Ok tools ∧ int ds = Ok t
                   ∧ is_Some (tools !! t))
     ∧ (∀ m, m ∈ finditer false MILL line →
          ∃ pre ds post,
            line = pre ++ chr "T" :: ds ++ post ∧ length pre = m_start m
            ∧ group m 1 = Some ds ∧ digits ds ∧ (1 ≤ length ds ≤ 2)%nat
            ∧ no_digit_next post))
  ∧ extract_tools (py "T1 (FACE MILL)") = Ok {[1%Z := py "FACE MILL"]}
  ∧ finditer false MILL (py "T123") = []
  ∧ extract_tools (py "T123") = Ok ∅.
Proof.
  split_and!; [|by vm_compute..].
  intros text line Hl. split.
  - intros pre ds post -> Hd Hlen Hnext.
    destruct (int_short ds Hd Hlen) as (t & Ht & _).
    destruct (extract_tools_invoked text _ t Hl) as (tools & E & Hk);
      [by apply line_tools_mill|].
    by exists tools, t.
  - intros m Hm. apply finditer_from_sound in Hm as (pre & rest & -> & Hm).
    apply mill_sound in Hm as (ds & post & -> & Hd & Hlen & Hnext & ->).
    exists pre, ds, post. rewrite Nat.add_0_r. split_and!; (done || lia).
Qed.

(** [T12] between a block number and a tool change. *)
Lemma mill_convention_witness :
  ∃ tools, extract_tools (py "N30 T12 M06") = Ok tools ∧ is_Some (tools !! 12%Z).
Proof.
  destruct (proj1 (proj1 mill_convention (py "N30 T12 M06") (py "N30 T12 M06")
                     ltac:(decide_by_compute))
              (py "N30 ") (py "12") (py " M06"))
    as (tools & t & E & Ht & Hk).
  - reflexivity.
  - vm_compute. reflexivity.
  - simpl. lia.
  - intros c Hc. injection Hc as <-. vm_compute. reflexivity.
  - exists tools. split; [exact E|]. vm_compute in Ht. injection Ht as <-.
    exact Hk.
Defined.

(** C5. The lathe convention. On every line of the text, a [T] followed by
    four digits is a tool call whose number is the value of the first two
    digits, whatever the other two are, and that number is a key of the map.
    The other two digits are ignored, they give no key: when the [T] of
    that call is the only one of the text, the number of the call is the
    only key of the map; and in every text, each key is the value of the
    first two digits of a [T] with four digits, or the number of a mill
    call.  [T0404 (ROUGH TURN)] gives tool 4 with the description
    [ROUGH TURN]. *)
Theorem lathe_convention :
  (∀ text pre d1 d2 d3 d4 post,
     pre ++ chr "T" :: d1 :: d2 :: d3 :: d4 :: post ∈ splitlines text →
     digits [d1; d2; d3; d4] →
     ∃ tools, extract_tools text = Ok tools
       ∧ int [d1; d2] = Ok (Z.of_N (10 * Unicode.digit_value d1 + Unicode.digit_value d2))
       ∧ is_Some (tools !! Z.of_N (10 * Unicode.digit_value d1 + Unicode.digit_value d2))
       ∧ (chr "T" ∉ pre → chr "T" ∉ post →
          (∀ l, l ∈ splitlines text → chr "T" ∈ l →
                l = pre ++ chr "T" :: d1 :: d2 :: d3 :: d4 :: post) →
          ∀ t, is_Some (tools !! t) →
               t = Z.of_N (10 * Unicode.digit_value d1 + Unicode.digit_value d2)))
  ∧ (∀ text tools t,
       extract_tools text = Ok tools → is_Some (tools !! t) →
       ∃ line pre post,
         line ∈ splitlines text
         ∧ ((∃ d1 d2 d3 d4,
               line = pre ++ chr "T" :: d1 :: d2 :: d3 :: d4 :: post
               ∧ digits [d1; d2; d3; d4]
               ∧ t = Z.of_N (10 * Unicode.digit_value d1 + Unicode.digit_value d2))
            ∨ (∃ ds,
                 line = pre ++ chr "T" :: ds ++ post
                 ∧ digits ds ∧ (1 ≤ length ds ≤ 2)%nat ∧ no_digit_next post
                 ∧ int ds = Ok t)))
  ∧ extract_tools (py "T0404 (ROUGH TURN)") = Ok {[4%Z := py "ROUGH TURN"]}.
Proof.
  assert (Hsrc : ∀ text (tools : gmap Z (list N)) t,
            extract_tools text = Ok tools → is_Some (tools !! t) →
            ∃ l, l ∈ splitlines text ∧ t ∈ line_tools l).
  { intros text tools t E [d Hd].
    destruct (extract_tools_spec text) as (tools' & E' & H).
    rewrite E in E'. injection E' as <-. rewrite H in Hd.
    destruct (list_find _ _) as [[i l]|] eqn:Hf; [|done].
    apply list_find_Some in Hf as (Hi & Hl & _).
    exists l. split; [by eapply list_elem_of_lookup_2|done]. }
  split_and!; [| |by vm_compute].
  - intros text pre d1 d2 d3 d4 post Hl Hd.
    destruct (extract_tools_invoked text _ _ Hl (line_tools_lathe pre _ _ _ _ post Hd))
      as (tools & E & Hk).
    exists tools. split_and!; [done| |done|].
    + unfold digits in Hd. simpl in Hd.
      repeat match goal with
        | H : _ && _ = true |- _ => apply andb_true_iff in H as [? ?] end.
      by apply int_two.
    + intros Hpre Hpost Honly t Ht.
      destruct (Hsrc text tools t E Ht) as (l & Hin & Hlt).
      rewrite (Honly l Hin (line_tools_need_T _ _ Hlt)) in Hlt.
      exact (lathe_call_only_number pre d1 d2 d3 d4 post t Hd Hpre Hpost Hlt).
  - intros text tools t E Ht.
    destruct (Hsrc text tools t E Ht) as (l & Hin & Hlt).
    apply line_tools_inv in Hlt as (pre & post & Hlt). by exists l, pre, post.
Qed.

(** [T1203] is tool 12, and 3 is no tool: 12 is the only key. *)
Lemma lathe_convention_witness :
  ∃ tools, extract_tools (py "G50 T1203") = Ok tools
    ∧ is_Some (tools !! 12%Z)
    ∧ ∀ t, is_Some (tools !! t) → t = 12%Z.
Proof.
  destruct (proj1 lathe_convention (py "G50 T1203") (py "G50 ")
              (chr "1") (chr "2") (chr "0") (chr "3") [])
    as (tools & E & _ & Hk & Honly).
  - decide_by_compute.
  - vm_compute. reflexivity.
  - exists tools. split; [exact E|]. split; [exact Hk|].
    apply Honly.
    + decide_by_compute.
    + apply not_elem_of_nil.
    + intros l Hl _.
      change (splitlines (py "G50 T1203")) with [py "G50 T1203"] in Hl.
      apply list_elem_of_singleton in Hl. exact Hl.
Defined.

(** C6. Comment proximity resolution. On every index of the line sequence
    and for every window size, [_nearest_good_comment] returns the first
    qualifying candidate of the indexed line (its comments taken last to
    first, each without its letter-dash prefix, the first that is not noise);
    failing that, the first qualifying candidate of the nearest of the up to
    [search_back] lines before it that has one; failing that, the empty
    string.  The window is 25 lines unless the caller says otherwise. *)
Theorem nearest_comment_resolution (lines : list str) (index : nat) (search_back : Z) :
  (index < length lines)%nat →
  _nearest_good_comment lines (Z.of_nat index) search_back
  = Ok (default [] (head (omap qualifying
                            (examined lines index (Z.to_nat search_back)))))
  ∧ search_back_default = 25%Z.
Proof. intros Hi. split; [|done]. by apply nearest_refines. Qed.

(** From the third line the search passes the noise comment [(A)] of the
    second and, on the first, [(INCH)], and returns the first comment of the
    first line without its prefix. *)
Lemma nearest_comment_resolution_witness :
  _nearest_good_comment
    [py "(D - 10MM DRILL) (INCH)"; py "G0 X0 (A)"; py "T03 M06"] 2 25
  = Ok (py "10MM DRILL").
Proof.
  refine (eq_trans (proj1 (nearest_comment_resolution
                    [py "(D - 10MM DRILL) (INCH)"; py "G0 X0 (A)"; py "T03 M06"]
                    2 25 ltac:(simpl; lia))) _).
  vm_compute. reflexivity.
Defined.







(** C8, as amended. The report is the header line, a blank line, and then,
    for the tool numbers of the map in ascending order, one line each:
    [T<NN> - <description>] when the description, trimmed of surrounding
    blanks, is not empty, and [T<NN>] alone otherwise, the description being
    printed trimmed; for an empty map the only line after the blank one is
    [(No tools found)].  [NN] is the tool number in Python's [02d] format:
    for a number that is not negative its decimal digits padded with zeros to
    two, which for a number below 100 is two digits exactly.  For the name
    DEMO and the map {1: "FACE MILL", 4: ""} the report is as the
    specification prints it. *)
Theorem report_layout :
  (∀ (name : option str) (tools : gmap Z (list N)),
     ∃ ks, StronglySorted Z.lt ks
       ∧ (∀ t, t ∈ ks ↔ is_Some (tools !! t))
       ∧ format_tool_list name tools = Ok (report name tools ks))
  ∧ (∀ t, (0 ≤ t)%Z → format_02d t = zero_pad 2 (decimal (Z.to_N t)))
  ∧ (∀ t, (0 ≤ t < 100)%Z →
       format_02d t = [0x30 + Z.to_N t / 10; 0x30 + Z.to_N t mod 10])
  ∧ format_tool_list (Some (py "DEMO")) (<[1%Z := py "FACE MILL"]> {[4%Z := []]})
    = Ok (text_of [py "Tool List for ( DEMO )."; []; py "T01 - FACE MILL"; py "T04"])
  ∧ (∀ name, format_tool_list name ∅
             = Ok (text_of [header_line name; []; py "(No tools found)"])).
Proof.
  split_and!.
  - intros name tools. exists (sorted_keys tools).
    destruct (sorted_keys_spec tools) as [Hs Hk].
    split_and!; [done|done|apply format_tool_list_spec].
  - apply format_02d_nonneg.
  - apply format_02d_small.
  - by vm_compute.
  - intros name. by rewrite format_tool_list_spec.
Qed.

(** Tool numbers 7, 12 and 123 as the report prints them. *)
Lemma report_layout_witness :
  format_02d 7 = py "07" ∧ format_02d 12 = py "12" ∧ format_02d 123 = py "123".
Proof.
  split_and!.
  - refine (eq_trans (proj1 (proj2 (proj2 report_layout)) 7%Z _) _);
      [lia | vm_compute; reflexivity].
  - refine (eq_trans (proj1 (proj2 (proj2 report_layout)) 12%Z _) _);
      [lia | vm_compute; reflexivity].
  - refine (eq_trans (proj1 (proj2 report_layout) 123%Z _) _);
      [lia | vm_compute; reflexivity].
Defined.

(** C8, as stated, fails: a description of blanks only is not empty, and
    yet its tool is printed as [T01] alone, not as [T01 - ] followed by the
    description; a description is printed without the blanks around it; and
    a negative number is printed with its sign and no padding. *)
Lemma description_is_trimmed :
  format_tool_list (Some (py "DEMO")) {[1%Z := py "  "]}
  = Ok (text_of [py "Tool List for ( DEMO )."; []; py "T01"])
  ∧ format_tool_list (Some (py "DEMO")) {[1%Z := py "  "]}
    ≠ Ok (report_with tool_line_untrimmed (Some (py "DEMO")) {[1%Z := py "  "]} [1%Z])
  ∧ format_tool_list (Some (py "DEMO")) {[1%Z := py " FACE MILL "]}
    = Ok (text_of [py "Tool List for ( DEMO )."; []; py "T01 - FACE MILL"])
  ∧ format_tool_list (Some (py "DEMO")) {[1%Z := py " FACE MILL "]}
    ≠ Ok (report_with tool_line_untrimmed (Some (py "DEMO"))
            {[1%Z := py " FACE MILL "]} [1%Z])
  ∧ format_tool_list (Some (py "DEMO")) {[(-5)%Z := py "TAP"]}
    = Ok (text_of [py "Tool List for ( DEMO )."; []; py "T-5 - TAP"]).
Proof. split_and!; by vm_compute. Qed.

(** C9. Totality. On every input the core functions return: the model of
    [is_noise_comment] has no operation that can raise and is a total
    function to [bool]; [extract_program_name], [extract_tools] and
    [format_tool_list], whose models can raise at an index, a key, a
    conversion or a method call on [None], never do. *)
Theorem core_is_total (text : str) (name : option str) (tools : gmap Z (list N)) :
  (∃ b : bool, is_noise_comment text = b)
  ∧ (∃ r : option str, extract_program_name text = Ok r)
  ∧ (∃ m : gmap Z (list N), extract_tools text = Ok m)
  ∧ (∃ s : str, format_tool_list name tools = Ok s).
Proof.
  split_and!.
  - by eexists.
  - unfold extract_program_name.
    destruct (scan_headers_total _ (no_newline_splitlines text)) as [[n|] ->].
    + by eexists.
    + apply scan_standalone_total, no_newline_splitlines.
  - destruct (extract_tools_spec text) as (m & E & _). eauto.
  - rewrite format_tool_list_spec. by eexists.
Qed.

(** C10. An empty program name is shown as no name at all: for [None] and
    for the empty string alike the header is
    [Tool List for ( UNKNOWN PROGRAM ).], and the reports are the same.  A
    name can be extracted as empty: the header [O1 ( )] gives one. *)
Theorem empty_name_is_unknown (tools : gmap Z (list N)) :
  format_tool_list (Some []) tools = format_tool_list None tools
  ∧ (∃ body, format_tool_list (Some []) tools
             = Ok (py "Tool List for ( UNKNOWN PROGRAM )." ++ newline ++ body))
  ∧ extract_program_name (py "O1 ( )") = Ok (Some []).
Proof.
  split_and!; [done| |by vm_compute].
  rewrite format_tool_list_spec. unfold report, report_with.
  cbn [join]. eexists. unfold header_line. simpl bool_decide. cbn match.
  reflexivity.
Qed.

(** * Further properties *)

(** X1. A description that [extract_tools] stores and that is not empty is
    a comment of the text: a comment of the line of the tool's first call or
    of one of the 25 lines above it, trimmed and without its letter-dash
    prefix.  It is not noise and has at least three characters. *)
Theorem description_is_a_comment (text : str) (tools : gmap Z (list N))
    (t : Z) (d : str) :
  extract_tools text = Ok tools → tools !! t = Some d → d ≠ [] →
  is_noise_comment d = false ∧ (3 ≤ length d)%nat
  ∧ ∃ i l k line c,
      list_find (fun l => t ∈ line_tools l) (splitlines text) = Some (i, l)
      ∧ (k ≤ 25)%nat ∧ splitlines text !! (i - k)%nat = Some line
      ∧ c ∈ _comments_on_line line ∧ d = drop_letter_dash (strip c).
Proof.
  intros E Ht Hd.
  destruct (stored_description_source text tools t d E Ht Hd) as [Hn Hsrc].
  split_and!; [done|by apply not_noise_length|done].
Qed.

(** A tool called one line below its comment. *)
Lemma description_is_a_comment_witness :
  is_noise_comment (py "12MM DRILL") = false
  ∧ ∃ line c,
      line ∈ splitlines (text_of [py "( D - 12MM DRILL )"; py "T07 M06"])
      ∧ c ∈ _comments_on_line line
      ∧ py "12MM DRILL" = drop_letter_dash (strip c).
Proof.
  destruct (description_is_a_comment
              (text_of [py "( D - 12MM DRILL )"; py "T07 M06"])
              {[7%Z := py "12MM DRILL"]} 7%Z (py "12MM DRILL"))
    as (Hn & _ & i & l & k & line & c & _ & _ & Hl & Hc & Hd).
  - vm_compute. reflexivity.
  - vm_compute. reflexivity.
  - discriminate.
  - split; [exact Hn|]. exists line, c. split_and!; [|exact Hc|exact Hd].
    eapply list_elem_of_lookup_2. exact Hl.
Defined.

(** X2. Every description that [extract_tools] stores is trimmed: it has
    no whitespace at either end, so that the [strip] of [format_tool_list]
    finds nothing to remove. *)
Theorem stored_description_trimmed (text : str) (tools : gmap Z (list N))
    (t : Z) (d : str) :
  extract_tools text = Ok tools → tools !! t = Some d → strip d = d.
Proof. apply stored_description_strip. Qed.

(** The comment is stored without the blanks inside its parentheses. *)
Lemma stored_description_trimmed_witness :
  strip (py "12MM DRILL") = py "12MM DRILL".
Proof.
  apply (stored_description_trimmed
           (text_of [py "(  12MM DRILL  )"; py "T07 M06"])
           {[7%Z := py "12MM DRILL"]} 7%Z).
  - vm_compute. reflexivity.
  - vm_compute. reflexivity.
Defined.

(** X3. The three calls [get_tool_list] makes on a text always give a
    report.  In it every tool number is written with exactly two digits,
    and every description is printed as [extract_tools] stored it, after
    [ - ], or left out when it is empty. *)
Theorem tool_list_block_layout (text : str) :
  ∃ name tools ks,
    extract_program_name text = Ok name
    ∧ extract_tools text = Ok tools
    ∧ StronglySorted Z.lt ks
    ∧ (∀ t, t ∈ ks ↔ is_Some (tools !! t))
    ∧ tool_list_block text
      = Ok (report_with tool_line_untrimmed name tools ks)
    ∧ ∀ t, t ∈ ks →
        format_02d t = [0x30 + Z.to_N t / 10; 0x30 + Z.to_N t mod 10].
Proof.
  destruct (program_name_total text) as [name Hname].
  destruct (extract_tools_spec text) as (tools & E & _).
  destruct (sorted_keys_spec tools) as [Hs Hk].
  exists name, tools, (sorted_keys tools). split_and!; [done..| |].
  - by apply tool_list_block_report.
  - intros t Ht%Hk. apply format_02d_small.
    pose proof (stored_key_range _ _ _ E Ht). lia.
Qed.

(** X4. The map of [extract_tools] holds tool calls only: each key is the
    number of a lathe call (a [T] and four digits, the first two read) or of
    a mill call (a [T], one or two digits and no further digit) on some line
    of the text. *)
Theorem key_is_a_tool_call (text : str) (tools : gmap Z (list N)) (t : Z) :
  extract_tools text = Ok tools → is_Some (tools !! t) →
  ∃ line pre post,
    line ∈ splitlines text
    ∧ ((∃ d1 d2 d3 d4,
          line = pre ++ chr "T" :: d1 :: d2 :: d3 :: d4 :: post
          ∧ digits [d1; d2; d3; d4]
          ∧ t = Z.of_N (10 * Unicode.digit_value d1 + Unicode.digit_value d2))
       ∨ (∃ ds,
            line = pre ++ chr "T" :: ds ++ post
            ∧ digits ds ∧ (1 ≤ length ds ≤ 2)%nat ∧ no_digit_next post
            ∧ int ds = Ok t)).
Proof.
  intros E [d Hd]. destruct (extract_tools_spec text) as (tools' & E' & H).
  rewrite E in E'. injection E' as <-. rewrite H in Hd.
  destruct (list_find _ _) as [[i l]|] eqn:Hf; [|done].
  apply list_find_Some in Hf as (Hi & Hl & _).
  apply line_tools_inv in Hl as (pre & post & Hl).
  exists l, pre, post. split; [|done]. by eapply list_elem_of_lookup_2.
Qed.

(** The key 12 of [G50 T1203] is the lathe call [T1203]. *)
Lemma key_is_a_tool_call_witness :
  ∃ line pre post,
    line ∈ splitlines (py "G50 T1203")
    ∧ ((∃ d1 d2 d3 d4,
          line = pre ++ chr "T" :: d1 :: d2 :: d3 :: d4 :: post
          ∧ digits [d1; d2; d3; d4]
          ∧ 12%Z = Z.of_N (10 * Unicode.digit_value d1 + Unicode.digit_value d2))
       ∨ (∃ ds,
            line = pre ++ chr "T" :: ds ++ post
            ∧ digits ds ∧ (1 ≤ length ds ≤ 2)%nat ∧ no_digit_next post
            ∧ int ds = Ok 12%Z)).
Proof.
  apply (key_is_a_tool_call (py "G50 T1203") {[12%Z := []]} 12%Z).
  - vm_compute. reflexivity.
  - exists []. vm_compute. reflexivity.
Defined.

(** X5. A text without a capital T has no tool: the map is empty and the
    report says so.  In particular a lower-case [t] calls no tool. *)
Theorem no_T_no_tools (text : str) :
  chr "T" ∉ text →
  extract_tools text = Ok ∅
  ∧ ∃ name, tool_list_block text
            = Ok (text_of [header_line name; []; py "(No tools found)"]).
Proof.
  intros HT. destruct (extract_tools_spec text) as (tools & E & H).
  assert (tools = ∅) as ->.
  { apply map_empty. intros t. rewrite H.
    destruct (list_find _ _) as [[i l]|] eqn:Hf; [|done].
    apply list_find_Some in Hf as (Hi & Hl & _).
    apply line_tools_need_T in Hl. destruct HT.
    eapply splitlines_subset; [|exact Hl]. by eapply list_elem_of_lookup_2. }
  split; [done|].
  destruct (program_name_total text) as [name Hname].
  exists name. unfold tool_list_block. rewrite Hname, E. cbn [mbind res_bind].
  by rewrite format_tool_list_spec.
Qed.

(** A program in lower case. *)
Lemma no_T_no_tools_witness :
  extract_tools (text_of [py "o1234 (bracket)"; py "t05 m06 (drill 6mm)"]) = Ok ∅.
Proof.
  apply (no_T_no_tools (text_of [py "o1234 (bracket)"; py "t05 m06 (drill 6mm)"])).
  decide_by_compute.
Defined.

(** X6. What [_comments_on_line] returns are the parenthesized parts of the
    line: each comment stands in the line between an opening and a closing
    parenthesis, is not empty, and holds no closing parenthesis after its
    first character. *)
Theorem comments_are_parenthesized (line c : str) :
  c ∈ _comments_on_line line →
  comment_body c
  ∧ ∃ pre post, line = pre ++ chr "(" :: c ++ chr ")" :: post.
Proof.
  intros (pre & post & E & Hb)%comments_on_line_sound. split; [done|].
  by exists pre, post.
Qed.

(** The comment of [N1 (T1 DRILL) M6]. *)
Lemma comments_are_parenthesized_witness :
  comment_body (py "T1 DRILL")
  ∧ ∃ pre post,
      py "N1 (T1 DRILL) M6" = pre ++ chr "(" :: py "T1 DRILL" ++ chr ")" :: post.
Proof.
  apply (comments_are_parenthesized (py "N1 (T1 DRILL) M6") (py "T1 DRILL")).
  decide_by_compute.
Defined.

(** X7. The report of a text reads back line by line: split into lines, it
    is the header line, an empty line, and then one line for each tool
    number, or the single line [(No tools found)].  No program name and no
    description breaks a line of the report. *)
Theorem report_has_one_line_per_tool (text : str) :
  ∃ name tools block,
    extract_program_name text = Ok name ∧ extract_tools text = Ok tools
    ∧ tool_list_block text = Ok block
    ∧ splitlines block
      = header_line name :: [] ::
          (if decide (tools = ∅) then [py "(No tools found)"]
           else map (tool_line_untrimmed tools) (sorted_keys tools))
    ∧ length (splitlines block) = (2 + max 1 (size tools))%nat.
Proof.
  destruct (program_name_total text) as [name Hname].
  destruct (extract_tools_spec text) as (tools & E & _).
  exists name, tools, (report_with tool_line_untrimmed name tools (sorted_keys tools)).
  split_and!; [done|done|by apply tool_list_block_report| |];
    rewrite (report_lines text) by done;
    pose proof (sorted_keys_length tools) as Hlen;
    destruct (sorted_keys tools) as [|k ks] eqn:Ek.
  - symmetry in Hlen. apply map_size_empty_iff in Hlen. by rewrite decide_True.
  - rewrite decide_False; [done|]. intros ->. by rewrite map_size_empty in Hlen.
  - simpl in *. lia.
  - cbn [length]. rewrite length_map, Hlen. cbn [length] in Hlen. lia.
Qed.

(** X8. A program name that [extract_program_name] finds is taken from a
    line of the text: it is what stands between the first opening and the
    last closing parenthesis of that line, trimmed.  The line is one that
    the first strategy accepts (blanks, O, digits, blanks, and from the
    opening parenthesis to the closing one at its end; [o_number_line]), or
    one that begins with an opening and ends with a closing parenthesis
    apart from blanks ([paren_line]), has no percent sign and comes after a
    line that has one.  What stands between the two parentheses is not
    empty and may hold parentheses of its own.  The name has no whitespace
    at either end and no line break. *)
Theorem program_name_is_line_content (text n : str) :
  extract_program_name text = Ok (Some n) →
  strip n = n ∧ one_line n
  ∧ ∃ pre line post content,
      splitlines text = pre ++ line :: post ∧ n = strip content
      ∧ (o_number_line line content
         ∨ (paren_line line content ∧ ¬ has_percent line
            ∧ ∃ l, l ∈ pre ∧ has_percent l)).
Proof.
  intros H. split_and!.
  - apply program_name_source in H as (_ & _ & _ & c & _ & -> & _).
    apply strip_trimmed.
  - by eapply program_name_one_line.
  - by apply program_name_source.
Qed.

(** The name of a program that has no header line. *)
Lemma program_name_is_line_content_witness :
  strip (py "WIDGET") = py "WIDGET" ∧ one_line (py "WIDGET").
Proof.
  destruct (program_name_is_line_content
              (text_of [py "%"; py "G21"; py " ( WIDGET ) "]) (py "WIDGET"))
    as (Hs & Ho & _).
  - vm_compute. reflexivity.
  - split; [exact Hs|exact Ho].
Defined.

(** X9. The comments of a line, read from left to right.  A line without
    an opening parenthesis has none.  At the first opening parenthesis that
    is followed by a character and then, with no newline between, by a
    closing parenthesis, the comment is what stands before the first such
    closing parenthesis, and the scan goes on behind it.  An opening
    parenthesis that is not closed in this way is passed over. *)
Theorem comments_left_to_right :
  (∀ line, chr "(" ∉ line → _comments_on_line line = [])
  ∧ (∀ pre c post, chr "(" ∉ pre → comment_body c →
       _comments_on_line (pre ++ chr "(" :: c ++ chr ")" :: post)
       = c :: _comments_on_line post)
  ∧ (∀ pre rest, chr "(" ∉ pre →
       (∀ c post, comment_body c → rest ≠ c ++ chr ")" :: post) →
       _comments_on_line (pre ++ chr "(" :: rest) = _comments_on_line rest).
Proof.
  split_and!;
    [apply comments_none|apply comments_first|apply comments_unclosed].
Qed.

(** X10. What follows a text changes nothing that was found in it: when
    the lines of [text'] start with the lines of [text], every tool of
    [text] is a tool of [text'], with the same description. *)
Theorem later_lines_keep_tools (text text' : str) (more : list str)
    (tools tools' : gmap Z (list N)) :
  splitlines text' = splitlines text ++ more →
  extract_tools text = Ok tools → extract_tools text' = Ok tools' →
  tools ⊆ tools'.
Proof.
  intros Hl E E'.
  destruct (extract_tools_spec text) as (m & Em & H).
  destruct (extract_tools_spec text') as (m' & Em' & H').
  assert (m = tools) as -> by congruence.
  assert (m' = tools') as -> by congruence.
  apply map_subseteq_spec. intros t d. rewrite H, H', Hl.
  destruct (list_find _ (splitlines text)) as [[i l]|] eqn:Hf; [|done].
  rewrite (list_find_app_l _ _ _ _ _ Hf). simpl. intros [= <-].
  rewrite nearest_comment_app; [done|].
  apply list_find_Some in Hf as (Hi & _). by eapply lookup_lt_Some.
Qed.

(** A second tool change added to a program. *)
Lemma later_lines_keep_tools_witness :
  ({[3%Z := py "DRILL"]} : gmap Z (list N))
  ⊆ {[3%Z := py "DRILL"; 4%Z := py "TAP"]}.
Proof.
  apply (later_lines_keep_tools
           (text_of [py "(DRILL)"; py "T3 M6"])
           (text_of [py "(DRILL)"; py "T3 M6"; py "(TAP)"; py "T4 M6"])
           [py "(TAP)"; py "T4 M6"]).
  - vm_compute. reflexivity.
  - vm_compute. reflexivity.
  - vm_compute. reflexivity.
Defined.

(** X11. [_nearest_good_comment] at an index that is not one of a line:
    beyond the last line, or below minus the number of lines, it raises
    [IndexError]; a negative index within these bounds counts from the end,
    as Python's indexing does, and then only the comments of that one line
    are looked at, none of the lines before it. *)
Theorem nearest_comment_index_edges (lines : list str) (i search_back : Z) :
  ((i < - Z.of_nat (length lines) ∨ Z.of_nat (length lines) ≤ i)%Z →
     _nearest_good_comment lines i search_back = Raise IndexError)
  ∧ (∀ line, (- Z.of_nat (length lines) ≤ i < 0)%Z →
       lines !! Z.to_nat (i + Z.of_nat (length lines)) = Some line →
       _nearest_good_comment lines i search_back
       = Ok (default [] (qualifying line))).
Proof.
  split.
  - intros H. unfold _nearest_good_comment. by rewrite getitem_outside.
  - intros line Hi Hl. unfold _nearest_good_comment.
    rewrite (getitem_negative _ _ line) by (done || lia).
    cbn [mbind res_bind]. rewrite first_good_qualifying.
    destruct (qualifying line); [done|].
    rewrite range_down_empty by lia. done.
Qed.

(** X12. [get_tool_list] on a selection that is not empty never fails, and
    shows one block for each selected file, in the order of the selection,
    the blocks separated by an empty line: the report of the file, under
    its name in brackets when more than one file is selected, or, for a
    file that could not be read, its name and the message of the error. *)
Theorem get_tool_list_shows_every_file (basename : list N → list N)
    (read : list N → read_result) (selected_files : list str) :
  selected_files ≠ [] →
  ∃ blocks,
    get_tool_list basename read selected_files
    = Ok (Some (join (newline ++ newline) blocks))
    ∧ Forall2 (shown_for basename read (1 <? length selected_files)%nat)
        selected_files blocks.
Proof.
  intros Hne. unfold get_tool_list.
  destruct (get_tool_list_loop_spec basename read (length selected_files)
              selected_files []) as (blocks & E & H).
  exists blocks. split; [|done].
  destruct selected_files; [done|]. by rewrite E.
Qed.

(** Two files, the second of which cannot be read. *)
Lemma get_tool_list_shows_every_file_witness :
  get_tool_list (fun path => path)
    (fun path => if bool_decide (path = py "a.nc")
                 then ReadOk (text_of [py "(DRILL)"; py "T3 M6"])
                 else ReadError (py "denied"))
    [py "a.nc"; py "b.nc"]
  = Ok (Some (text_of
      [py "[a.nc]"; py "Tool List for ( UNKNOWN PROGRAM )."; [];
       py "T03 - DRILL"; []; []; py "[b.nc]"; py "Error reading file: denied";
       []])).
Proof.
  destruct (get_tool_list_shows_every_file (fun path => path)
    (fun path => if bool_decide (path = py "a.nc")
                 then ReadOk (text_of [py "(DRILL)"; py "T3 M6"])
                 else ReadError (py "denied"))
    [py "a.nc"; py "b.nc"]) as (blocks & _ & _); [discriminate|].
  vm_compute. reflexivity.
Defined.
